(** * kalpak: a bulk URL downloader (src/kalpak.py)

    A shallow embedding of the fetch-and-retry loop, the dispatcher
    [download_urls], the persistence step [save_to_directory] and the
    start-up path [parse_args]/[main], with the properties stated about
    them in the specification.

    Conventions of the embedding.
    - Python [int] is [Z]; [bytes] is [list byte]; [str] is [string];
      a variable that may hold [None] is an [option].
    - The outside world (the session and the servers behind it, the
      random generator, [urllib.parse.urlparse], the file system) is not
      code of the program.  It is taken as Section variables, so every
      theorem holds for all behaviours of the world.  What the aiohttp
      client adds of its own between [fetch] and the servers, following
      redirects inside a call, is [aiohttp_get].
    - What the program does to the world is recorded as a list of
      [Event]s, in program order: log records, requests and replies.
      Coloured [print] lines and the progress bar repeat the log records
      and are left out. *)

From Stdlib Require Import List String Ascii ZArith Lia Bool.
From Stdlib.Strings Require Import Byte.
From Stdlib Require Import Permutation.
Import ListNotations.
Open Scope string_scope.
Open Scope list_scope.

(** ** Python values *)

Definition bytes := list byte.
Definition Headers := list (string * string).

(** Truth value of a [str] and of an [Optional[str]]: [None] and the
    empty string are false. *)
Definition str_truthy (s : string) : bool :=
  match s with EmptyString => false | String _ _ => true end.

Definition truthy (s : option string) : bool :=
  match s with Some v => str_truthy v | None => false end.

(** [range(n)]: empty when [n <= 0]. *)
Definition range (n : Z) : list Z := map Z.of_nat (seq 0 (Z.to_nat n)).

(** ** Exceptions *)

(** The classes named in the first [except] clause of [fetch], and all
    the others.  [ClientError] stands for itself and for those of its
    subclasses that are not listed on their own (a malformed response, a
    payload error, an invalid URL). *)
Inductive Exn :=
| ClientConnectorError
| ServerTimeoutError
| ClientResponseError
| ClientError
| AsyncioTimeoutError
| OtherException (name : string).

(** [except (ClientConnectorError, ServerTimeoutError, ClientResponseError,
    ClientError, asyncio.TimeoutError)] *)
Definition network_class (e : Exn) : bool :=
  match e with
  | OtherException _ => false
  | _ => true
  end.

(** ** Responses *)

(** What [fetch] looks at in a response: the status, the reason phrase,
    [headers.get("Location")], and what [await response.read()] gives
    (the body, or an exception while the body is read). *)
Record Response := mkResponse {
  status : Z;
  reason : string;
  location : option string;
  read : Exn + bytes
}.

(** One [session.get]: a response, or an exception raised on the way. *)
Inductive Outcome :=
| Responded (r : Response)
| Raised (e : Exn).

(** ** Events *)

Inductive LogRecord :=
(* fetch *)
| DebugAttempting (url : option string) (attempt_no : Z)
| InfoFetched (url : option string)
| InfoRedirected (url : string)
| ErrorStatus (url : option string) (code : Z) (why : string)
| WarningNetwork (url : option string) (attempt_no : Z) (e : Exn)
| ErrorUnexpected (url : option string) (attempt_no : Z) (e : Exn)
(* download_urls *)
| WarningInvalidURL (url : string)
| ErrorFailedFetch (url : string)
(* save_to_directory *)
| InfoCreatedDir (dir : string)
| ErrorCreateDir (dir : string) (e : Exn)
| InfoSaved (path : string)
| ErrorSave (path : string) (e : Exn)
(* validate_args, main *)
| ErrorRetries
| ErrorMaxConnections
| ErrorReadingURLs
| ErrorNoURLs
| ErrorConfig (config_file : string).

(** What a run leaves behind, in program order.
    - [Log]: a call of [logging.debug], [info], [warning] or [error].
    - [FetchCalled]: the body of a [fetch] coroutine starts to run.
    - [Request]: [session.get] is entered; the attempt is under way.
    - [Reply]: the attempt is over; the response has been handled and
      released at the end of the [async with] block, or an exception
      has been raised.
    - [WriteFile]: [open(path, "wb")] followed by [write(content)]. *)
Inductive Event :=
| Log (r : LogRecord)
| FetchCalled (url : string)
| Request (url : option string) (headers : Headers)
| Reply (o : Outcome)
| WriteFile (path : string) (content : bytes).

(** ** Constants *)

Definition USER_AGENTS : list string := [
  "Mozilla/5.0 (Windows NT 10.0; Win64; x64) AppleWebKit/537.36 (KHTML, like Gecko) Chrome/91.0.4472.124 Safari/537.36";
  "Mozilla/5.0 (Macintosh; Intel Mac OS X 10_15_7) AppleWebKit/537.36 (KHTML, like Gecko) Chrome/91.0.4472.124 Safari/537.36";
  "Mozilla/5.0 (Windows NT 10.0; Win64; x64; rv:89.0) Gecko/20100101 Firefox/89.0";
  "Mozilla/5.0 (Macintosh; Intel Mac OS X 10.15; rv:89.0) Gecko/20100101 Firefox/89.0"
].

(** [TCPConnector(limit=...)] inside a [ClientSession]. *)
Record ClientSession := mkSession { connector_limit : Z }.

(** How one pass through the body of the retry loop ends. *)
Inductive Control :=
| Return (content : bytes)
| Continue (url : option string)
| Break.

(** The state threaded through the run: [clock] counts the requests
    issued so far, [draws] the random numbers taken so far. *)
Record RunState := mkState { clock : nat; draws : nat }.

(** ** Reading a trace *)

(** The requests of a trace, in order. *)
Fixpoint requests (evs : list Event) : list (option string * Headers) :=
  match evs with
  | [] => []
  | Request u h :: rest => (u, h) :: requests rest
  | _ :: rest => requests rest
  end.

(** Attempts made: one per request. *)
Definition attempts_made (evs : list Event) : nat :=
  List.length (requests evs).

(** Requests awaiting their reply at the end of a trace: opened by
    [Request], closed by [Reply]. *)
Fixpoint in_flight (evs : list Event) : Z :=
  match evs with
  | [] => 0
  | Request _ _ :: rest => (1 + in_flight rest)%Z
  | Reply _ :: rest => (in_flight rest - 1)%Z
  | _ :: rest => in_flight rest
  end.

(** The URLs [fetch] was called on, in order. *)
Fixpoint fetch_calls (evs : list Event) : list string :=
  match evs with
  | [] => []
  | FetchCalled u :: rest => u :: fetch_calls rest
  | _ :: rest => fetch_calls rest
  end.

(** The files the program tried to write, in order. *)
Fixpoint write_attempts (evs : list Event) : list (string * bytes) :=
  match evs with
  | [] => []
  | WriteFile p c :: rest => (p, c) :: write_attempts rest
  | _ :: rest => write_attempts rest
  end.

(** What the calls of [session.get] came back with, in order. *)
Fixpoint replies (evs : list Event) : list Outcome :=
  match evs with
  | [] => []
  | Reply o :: rest => o :: replies rest
  | _ :: rest => replies rest
  end.

(** An event that neither opens nor closes a request. *)
Definition quiet (e : Event) : bool :=
  match e with
  | Request _ _ | Reply _ => false
  | _ => true
  end.

(** An event that stays inside the process: a log record or a file
    write, neither a request nor the start of a [fetch]. *)
Definition local (e : Event) : bool :=
  match e with
  | Log _ | WriteFile _ _ => true
  | _ => false
  end.

(** A trace in which requests never overlap: nothing is left open at
    its end, and after any number of its events at most one is open. *)
Definition one_at_a_time (evs : list Event) : Prop :=
  in_flight evs = 0%Z /\
  forall n, (0 <= in_flight (firstn n evs) <= 1)%Z.

(** [headers.get(name)] on the headers of a request. *)
Fixpoint headers_get (h : Headers) (name : string) : option string :=
  match h with
  | [] => None
  | (k, v) :: rest => if String.eqb k name then Some v else headers_get rest name
  end.

(** The entries the dispatcher logged as skipped, in order. *)
Fixpoint skipped_logs (evs : list Event) : list string :=
  match evs with
  | [] => []
  | Log (WarningInvalidURL u) :: rest => u :: skipped_logs rest
  | _ :: rest => skipped_logs rest
  end.

(** The URLs the dispatcher logged as failed, in order. *)
Fixpoint failed_logs (evs : list Event) : list string :=
  match evs with
  | [] => []
  | Log (ErrorFailedFetch u) :: rest => u :: failed_logs rest
  | _ :: rest => failed_logs rest
  end.

(** The events of the three phases of [download_urls]: skipping the
    invalid entries, fetching (the events of [fetch] and the record of
    a failed fetch), saving. *)
Definition skip_event (e : Event) : bool :=
  match e with
  | Log (WarningInvalidURL _) => true
  | _ => false
  end.

Definition fetch_event (e : Event) : bool :=
  match e with
  | FetchCalled _ | Request _ _ | Reply _ => true
  | Log (DebugAttempting _ _) | Log (InfoFetched _) | Log (InfoRedirected _)
  | Log (ErrorStatus _ _ _) | Log (WarningNetwork _ _ _)
  | Log (ErrorUnexpected _ _ _) | Log (ErrorFailedFetch _) => true
  | _ => false
  end.

Definition save_event (e : Event) : bool :=
  match e with
  | WriteFile _ _ => true
  | Log (InfoCreatedDir _) | Log (ErrorCreateDir _ _)
  | Log (InfoSaved _) | Log (ErrorSave _ _) => true
  | _ => false
  end.

(** A trace without any request, call of [fetch] or file write. *)
Definition silent (evs : list Event) : Prop :=
  requests evs = [] /\ fetch_calls evs = [] /\ write_attempts evs = [].

(** ** URLs, dictionaries, arguments *)

(** The fields of [urlparse(url)] the program reads. *)
Record ParseResult := mkParse {
  scheme : string;
  netloc : string;
  path : string
}.

(** A [Dict[str, bytes]]: keys are unique and keep the order in which
    they were first inserted; a later value replaces an earlier one. *)
Definition PyDict := list (string * bytes).

Fixpoint dict_set (d : PyDict) (k : string) (v : bytes) : PyDict :=
  match d with
  | [] => [(k, v)]
  | (k', v') :: rest =>
      if String.eqb k' k then (k', v) :: rest
      else (k', v') :: dict_set rest k v
  end.

Fixpoint dict_get (d : PyDict) (k : string) : option bytes :=
  match d with
  | [] => None
  | (k', v') :: rest => if String.eqb k' k then Some v' else dict_get rest k
  end.

(** [dict(pairs)] *)
Definition dict (pairs : list (string * bytes)) : PyDict :=
  fold_left (fun d kv => dict_set d (fst kv) (snd kv)) pairs [].

(** The [argparse.Namespace] that [parser.parse_args()] returns. *)
Record Namespace := mkArgs {
  arg_file : option string;
  arg_dest : string;
  arg_log : option string;
  arg_retries : Z;
  arg_max_connections : Z;
  arg_config : option string;
  arg_url : option (list string);
  arg_resume : bool
}.

(** The namespace with other inline URLs, and without a config file. *)
Definition with_url (args : Namespace) (urls : option (list string))
    : Namespace :=
  mkArgs (arg_file args) (arg_dest args) (arg_log args) (arg_retries args)
    (arg_max_connections args) (arg_config args) urls (arg_resume args).

Definition without_config (args : Namespace) : Namespace :=
  mkArgs (arg_file args) (arg_dest args) (arg_log args) (arg_retries args)
    (arg_max_connections args) None (arg_url args) (arg_resume args).

(** What [parser.parse_args()] does with the command line (line 248):
    it returns the namespace, or it ends the process itself, with status
    0 after printing the help or the version ([-h], [-v]) and with
    status 2 after reporting a command line it rejects. *)
Inductive CommandLine :=
| Parsed (args : Namespace)
| HelpOrVersion
| UsageError.

(** How the process ends. *)
Inductive Exit :=
| Finished
| SysExit (code : Z)
| Uncaught (e : Exn).

(** ** The HTTP client

    Line 96 calls [session.get(url, headers=headers, timeout=10)] and
    leaves [allow_redirects] and [max_redirects] at aiohttp's defaults
    ([True] and 10), so the client follows redirects itself, inside the
    one call.  [wire t hop url headers] is one HTTP exchange: what the
    request number [hop] of the [t]-th call, sent to [url], is answered
    with.  [resolve url location] is the URL a [Location] value stands
    for when it is received from [url] (an absolute URL as it is, a
    relative one joined to [url]), or the exception the client raises
    for a value it cannot follow. *)

(** The statuses the client treats as redirects. *)
Definition followed_status (code : Z) : bool :=
  ((code =? 301) || (code =? 302) || (code =? 303)
   || (code =? 307) || (code =? 308))%Z.

(** The redirect loop of [ClientSession._request].  Each redirect
    response is counted; the tenth one ([left = 0]) raises
    [TooManyRedirects], a subclass of [ClientResponseError].  Before
    that, a redirect response without a [Location] value (a missing or
    an empty header) is returned as it is, and one with a value is
    released and followed with the same headers.  Any other response,
    and any exception, ends the call. *)
Fixpoint follow_redirects (wire : nat -> nat -> string -> Headers -> Outcome)
    (resolve : string -> string -> Exn + string)
    (t left hop : nat) (url : string) (headers : Headers) : Outcome :=
  match wire t hop url headers with
  | Raised e => Raised e
  | Responded r =>
      if followed_status (status r) then
        match left with
        | 0 => Raised ClientResponseError
        | S left' =>
            match location r with
            | Some loc =>
                if str_truthy loc then
                  match resolve url loc with
                  | inl e => Raised e
                  | inr target =>
                      follow_redirects wire resolve t left' (S hop) target
                        headers
                  end
                else Responded r
            | None => Responded r
            end
        end
      else Responded r
  end.

(** [session.get] of an aiohttp session, as [fetch] sees it.  An empty
    URL has no host and is refused before anything is sent
    ([InvalidURL], a subclass of [ClientError]). *)
Definition aiohttp_get (wire : nat -> nat -> string -> Headers -> Outcome)
    (resolve : string -> string -> Exn + string)
    : nat -> string -> Headers -> Outcome :=
  fun t url headers =>
    if str_truthy url then follow_redirects wire resolve t 9 0 url headers
    else Raised ClientError.

(** ** Sample worlds

    Small concrete networks and generators, on which the program is run
    in the examples that follow the theorems. *)

Definition body_of (s : string) : bytes := list_byte_of_string s.

(** Every connection is refused. *)
Definition net_refused : nat -> string -> Headers -> Outcome :=
  fun _ _ _ => Raised ClientConnectorError.

(** Every [Location] value is an absolute URL. *)
Definition resolve_absolute : string -> string -> Exn + string :=
  fun _ location => inr location.

(** Redirects whose [Location] header is empty, through the client: it
    hands them over as they are, and refuses the empty URL. *)
Definition net_empty_location : nat -> string -> Headers -> Outcome :=
  aiohttp_get
    (fun _ _ _ _ => Responded (mkResponse 302 "Found" (Some "") (inr [])))
    resolve_absolute.

(** The first call is reset, the later ones succeed. *)
Definition net_reset_once : nat -> string -> Headers -> Outcome :=
  fun t _ _ =>
    match t with
    | 0 => Raised ClientConnectorError
    | _ => Responded (mkResponse 200 "OK" None (inr (body_of "payload")))
    end.

(** On the wire: the first exchange of every call is a redirect to
    b.test, the next one succeeds. *)
Definition wire_redirect_then_ok : nat -> nat -> string -> Headers -> Outcome :=
  fun _ hop _ _ =>
    match hop with
    | 0 => Responded (mkResponse 301 "Moved Permanently"
                        (Some "http://b.test/y.bin") (inr []))
    | _ => Responded (mkResponse 200 "OK" None (inr (body_of "payload")))
    end.



(** Every URL has moved for the time being (307) and no reply says where
    to: the client hands the reply over. *)
Definition net_temporary : nat -> string -> Headers -> Outcome :=
  fun _ _ _ =>
    Responded (mkResponse 307 "Temporary Redirect" None (inr [])).

(** Every reply is a 200 whose body breaks off. *)
Definition net_truncated : nat -> string -> Headers -> Outcome :=
  fun _ _ _ => Responded (mkResponse 200 "OK" None (inl ClientError)).

(** Nothing is found. *)
Definition net_not_found : nat -> string -> Headers -> Outcome :=
  fun _ _ _ => Responded (mkResponse 404 "Not Found" None (inr [])).

(** Redirects that name no target. *)
Definition net_no_location : nat -> string -> Headers -> Outcome :=
  fun _ _ _ => Responded (mkResponse 303 "See Other" None (inr [])).

(** Every URL answers 200 with its own text as the body. *)
Definition net_echo : nat -> string -> Headers -> Outcome :=
  fun _ u _ => Responded (mkResponse 200 "OK" None (inr (body_of u))).

(** A generator whose draws are 0, 1, 2, ... *)
Definition rnd_counter : nat -> nat := fun i => i.

(** A URL splitter in the manner of [urlparse], enough for URLs of the
    shape scheme://host/path: a text without "://" is all path, and an
    opening bracket that is never closed is a [ValueError]. *)
Fixpoint split_at_slash (s : string) : string * string :=
  match s with
  | EmptyString => ("", "")
  | String c rest =>
      if Ascii.eqb c "/" then ("", s)
      else let '(host, p) := split_at_slash rest in (String c host, p)
  end.

Definition sample_urlparse (url : string) : option ParseResult :=
  match index 0 "[" url, index 0 "]" url with
  | Some _, None => None
  | _, _ =>
      match index 0 "://" url with
      | Some i =>
          let rest := substring (i + 3) (String.length url - (i + 3)) url in
          let '(host, p) := split_at_slash rest in
          Some (mkParse (substring 0 i url) host p)
      | None => Some (mkParse "" "" url)
      end
  end.

(** Paths with "/" as the separator. *)
Fixpoint basename_from (acc p : string) : string :=
  match p with
  | EmptyString => acc
  | String c rest =>
      if Ascii.eqb c "/" then basename_from "" rest
      else basename_from (acc ++ String c EmptyString) rest
  end.

Definition sample_basename (p : string) : string := basename_from "" p.

Definition sample_dirname (p : string) : string :=
  substring 0 (String.length p - String.length (sample_basename p) - 1) p.

Definition sample_join (a b : string) : string :=
  if prefix "/" b then b
  else if String.eqb a "" then b
  else a ++ "/" ++ b.

(** A file system in which the paths listed in [denied] can neither be
    created nor written. *)
Record SampleFS := mkFS {
  dirs : list string;
  files : list (string * bytes);
  denied : list string
}.

Definition mem (p : string) (l : list string) : bool :=
  existsb (String.eqb p) l.

Definition sample_exists (fs : SampleFS) (p : string) : bool :=
  mem p (dirs fs) || mem p (map fst (files fs)).

Definition sample_makedirs (fs : SampleFS) (p : string)
    : SampleFS * option Exn :=
  if mem p (denied fs) then (fs, Some (OtherException "PermissionError"))
  else (mkFS (p :: dirs fs) (files fs) (denied fs), None).

Definition sample_write (fs : SampleFS) (p : string) (content : bytes)
    : SampleFS * option Exn :=
  if mem p (denied fs) then (fs, Some (OtherException "PermissionError"))
  else (mkFS (dirs fs) (dict_set (files fs) p content) (denied fs), None).

(** The directory "out" exists, and "out/x.bin" cannot be written. *)
Definition fs_denied_x : SampleFS := mkFS ["out"] [] ["out/x.bin"].

(** The directory "out" exists and everything can be written. *)
Definition fs_open : SampleFS := mkFS ["out"] [] [].

(** The input of the example run of the specification. *)
Definition example_urls : list string :=
  ["http://a.test/x.bin"; "not a url"; "http://a.test/y.bin"].

(** A command line with [--retries 0]. *)
Definition argv_no_retries : Namespace :=
  mkArgs None "." None 0 10 None (Some ["http://a.test/x.bin"]) false.

(** Two results to be saved. *)
Definition example_data : PyDict :=
  [("http://a.test/x.bin", body_of "x"); ("http://a.test/y.bin", body_of "y")].

(** The rest of the sample platform: a log file can be opened unless its
    path is denied; a URL file that exists holds the example input; a
    config file that exists loads. *)
Definition sample_open_log (fs : SampleFS) (p : string)
    : SampleFS * option Exn :=
  if mem p (denied fs) then (fs, Some (OtherException "PermissionError"))
  else (fs, None).

Definition sample_load_urls (fs : SampleFS) (p : string) : Exn + list string :=
  match dict_get (files fs) p with
  | Some _ => inr example_urls
  | None => inl (OtherException "FileNotFoundError")
  end.

Definition sample_load_yaml (fs : SampleFS) (p : string) : option Exn :=
  match dict_get (files fs) p with
  | Some _ => None
  | None => Some (OtherException "FileNotFoundError")
  end.

(** Command lines: one inline URL; no URL source; a URL file that does
    not exist; one inline URL and a config file that does not exist. *)
Definition argv_inline : Namespace :=
  mkArgs None "out" None 3 2 None (Some ["http://a.test/x.bin"]) false.

Definition argv_no_source : Namespace :=
  mkArgs None "out" None 3 2 None None false.

Definition argv_file : Namespace :=
  mkArgs (Some "urls.json") "out" None 3 2 None
    (Some ["http://a.test/x.bin"]) false.

Definition argv_config : Namespace :=
  mkArgs None "out" None 3 2 (Some "kalpak.yaml")
    (Some ["http://a.test/x.bin"]) false.

(** File systems in which the default log file, and the log directory
    under the home directory, are out of reach. *)
Definition fs_log_denied : SampleFS := mkFS [] [] ["/var/log/kalpak.log"].

Definition fs_home_denied : SampleFS := mkFS [] [] ["C:/Users/u/.kalpak"].

(** Two results whose URLs end in the same name. *)
Definition example_same_name : PyDict :=
  [("http://a.test/x.bin", body_of "a"); ("http://b.test/x.bin", body_of "b")].

(** ** The program *)

Section Program.

(** The session: what the [clock]-th call of [session.get] of the run,
    for this URL and with these headers, comes back with, once the
    client has done its own work on it.  The theorems of this section
    hold for any client; for the aiohttp session of the program,
    [network] is [aiohttp_get wire resolve], which follows redirects
    inside the call; what the program does with redirects is proved on
    it after the section. *)
Variable network : nat -> string -> Headers -> Outcome.

(** The random generator: its [i]-th draw. *)
Variable rnd : nat -> nat.

(** [random.choice(pool)] on the [g]-th draw. *)
Definition random_choice (g : nat) (pool : list string) : string :=
  nth (rnd g mod List.length pool) pool "".

(** [session.get(url, headers=headers, timeout=10)].  aiohttp builds
    the request from a string; [None] is refused when the request is
    built ([TypeError], not one of the network classes) and nothing is
    sent.  A timeout is the session answering [AsyncioTimeoutError].
    What the session does with a string, redirects included, is
    [network]. *)
Definition session_get (session : ClientSession) (t : nat)
    (url : option string) (headers : Headers) : Outcome :=
  match url with
  | None => Raised (OtherException "TypeError")
  | Some u => network t u headers
  end.

(** The two [except] clauses: both log and fall to the end of the loop
    body, so the loop goes on with the same [url]. *)
Definition handle_exception (url : option string) (attempt : Z) (e : Exn)
    : Control * list Event :=
  if network_class e
  then (Continue url, [Log (WarningNetwork url (attempt + 1) e)])
  else (Continue url, [Log (ErrorUnexpected url (attempt + 1) e)]).

(** What happens inside [async with ... as response]. *)
Definition on_response (url : option string) (attempt : Z) (r : Response)
    : Control * list Event :=
  if (status r =? 200)%Z then
    match read r with
    | inr content => (Return content, [Log (InfoFetched url)])
    | inl e => handle_exception url attempt e
    end
  else if ((status r =? 301) || (status r =? 302) || (status r =? 303))%Z then
    let url := location r in
    if truthy url
    then (Continue url,
          [Log (InfoRedirected (match url with Some u => u | None => "" end))])
    else (Continue url, [])
  else
    (Break, [Log (ErrorStatus url (status r) (reason r))]).

(** The body of [for attempt in range(retries)]. *)
Definition attempt_body (session : ClientSession) (headers : Headers)
    (t : nat) (attempt : Z) (url : option string) : Control * list Event :=
  let o := session_get session t url headers in
  let '(ctl, evs) :=
    match o with
    | Responded r => on_response url attempt r
    | Raised e => handle_exception url attempt e
    end in
  (ctl, Log (DebugAttempting url (attempt + 1))
        :: Request url headers :: Reply o :: evs).

(** The [for] loop over the attempt numbers still to come; falling off
    its end, or [break], leads to [return None]. *)
Fixpoint fetch_loop (session : ClientSession) (headers : Headers)
    (attempts : list Z) (t : nat) (url : option string)
    : option bytes * list Event * nat :=
  match attempts with
  | [] => (None, [], t)
  | attempt :: rest =>
      match attempt_body session headers t attempt url with
      | (Return content, evs) => (Some content, evs, S t)
      | (Break, evs) => (None, evs, S t)
      | (Continue url', evs) =>
          let '(res, evs', t') := fetch_loop session headers rest (S t) url' in
          (res, evs ++ evs', t')
      end
  end.

(** The headers of every request of one call. *)
Definition build_headers (g : nat) (resume : bool) : Headers :=
  ("User-Agent", random_choice g USER_AGENTS)
    :: (if resume then [("Range", "bytes=0-")] else []).

Definition fetch (url : string) (session : ClientSession) (retries : Z)
    (resume : bool) (st : RunState) : option bytes * list Event * RunState :=
  let headers := build_headers (draws st) resume in
  let '(res, evs, t') :=
    fetch_loop session headers (range retries) (clock st) (Some url) in
  (res, FetchCalled url :: evs, mkState t' (S (draws st))).

(** *** URL validity and file names *)

(** [urllib.parse.urlparse]; [None] when it raises [ValueError]. *)
Variable urlparse : string -> option ParseResult.

(** [os.path] of the platform. *)
Variable path_join : string -> string -> string.
Variable path_basename : string -> string.
Variable path_dirname : string -> string.

Definition is_valid_url (url : string) : bool :=
  match urlparse url with
  | Some result => str_truthy (scheme result) && str_truthy (netloc result)
  | None => false
  end.

(** [None] when [urlparse] raises: nothing catches it here. *)
Definition get_filename_from_url (url : string) : option string :=
  match urlparse url with
  | Some result =>
      let base := path_basename (path result) in
      Some (if str_truthy base then base else "downloaded_file")
  | None => None
  end.

(** *** Persistence *)

(** The file system: a state, and the three operations used on it.
    Each gives the new state and the exception it raised, if any. *)
Variable FS : Type.
Variable path_exists : FS -> string -> bool.
Variable makedirs : FS -> string -> FS * option Exn.
Variable write_file : FS -> string -> bytes -> FS * option Exn.

(** [for url, content in data.items()], with its [try]/[except] around
    the write only.  The third component is an exception that leaves
    the loop. *)
Fixpoint save_items (fs : FS) (items : list (string * bytes))
    (output_dir : string) : FS * list Event * option Exn :=
  match items with
  | [] => (fs, [], None)
  | (url, content) :: rest =>
      match get_filename_from_url url with
      | None => (fs, [], Some (OtherException "ValueError"))
      | Some filename =>
          let file_path := path_join output_dir filename in
          let '(fs1, err) := write_file fs file_path content in
          let record :=
            match err with
            | None => InfoSaved file_path
            | Some e => ErrorSave file_path e
            end in
          let '(fs2, evs, exn) := save_items fs1 rest output_dir in
          (fs2, WriteFile file_path content :: Log record :: evs, exn)
      end
  end.

Definition save_to_directory (fs : FS) (data : PyDict) (output_dir : string)
    : FS * list Event * option Exn :=
  if negb (path_exists fs output_dir) then
    match makedirs fs output_dir with
    | (fs1, None) =>
        let '(fs2, evs, exn) := save_items fs1 data output_dir in
        (fs2, Log (InfoCreatedDir output_dir) :: evs, exn)
    | (fs1, Some e) => (fs1, [Log (ErrorCreateDir output_dir e)], None)
    end
  else save_items fs data output_dir.

(** *** The dispatcher *)

(** [for url, task in zip(valid_urls, tasks): content = await task].
    A task is a coroutine object: its body starts to run when it is
    awaited and the loop goes on when it has returned. *)
Fixpoint await_tasks (session : ClientSession) (retries : Z) (resume : bool)
    (valid_urls : list string) (st : RunState)
    : list (string * bytes) * list Event * RunState :=
  match valid_urls with
  | [] => ([], [], st)
  | url :: rest =>
      let '(content, evs, st1) := fetch url session retries resume st in
      let '(results, evs', st2) := await_tasks session retries resume rest st1 in
      match content with
      | Some c => ((url, c) :: results, evs ++ evs', st2)
      | None => (results, evs ++ Log (ErrorFailedFetch url) :: evs', st2)
      end
  end.

Definition download_urls (urls : list string) (output_dir : string)
    (retries : Z) (max_connections : Z) (resume : bool)
    (fs : FS) (st : RunState) : FS * list Event * option Exn :=
  let session := mkSession max_connections in
  let valid_urls := filter is_valid_url urls in
  let invalid_urls := filter (fun url => negb (is_valid_url url)) urls in
  let skipped := map (fun url => Log (WarningInvalidURL url)) invalid_urls in
  let '(results, fetched, _) :=
    await_tasks session retries resume valid_urls st in
  let downloaded_content := dict results in
  let '(fs', saved, exn) := save_to_directory fs downloaded_content output_dir in
  (fs', skipped ++ fetched ++ saved, exn).

(** The pairs collected by the dispatcher, before they become a dict. *)
Definition collected (urls : list string) (retries : Z)
    (max_connections : Z) (resume : bool) (st : RunState)
    : list (string * bytes) :=
  fst (fst (await_tasks (mkSession max_connections) retries resume
              (filter is_valid_url urls) st)).

(** *** Start-up *)

Definition validate_args (args : Namespace) : bool * list Event :=
  if (arg_retries args <? 1)%Z then (false, [Log ErrorRetries])
  else if (arg_max_connections args <? 1)%Z
  then (false, [Log ErrorMaxConnections])
  else (true, []).

(** [parse_args], from the namespace that [parser.parse_args()]
    returned; the exits of that call itself are in [process]. *)
Definition parse_args (args : Namespace) : (Z + Namespace) * list Event :=
  match validate_args args with
  | (false, evs) => (inl 1%Z, evs)
  | (true, evs) => (inr args, evs)
  end.

(** The platform: [os.name], [os.path.expanduser("~")]. *)
Variable os_name : string.
Variable home : string.

(** Opening the log file in [setup_logging]; reading the URL file
    ([json.load(file).get("urls", [])]); reading the YAML file. *)
Variable open_log : FS -> string -> FS * option Exn.
Variable load_urls : FS -> string -> Exn + list string.
Variable load_yaml : FS -> string -> option Exn.

(** The classes that derive from a class named in an [except] clause
    of [load_config] or [main]: every error of PyYAML derives from
    [YAMLError]; [FileNotFoundError] and [JSONDecodeError] have no
    subclass. *)
Definition subclasses_of (name : string) : list string :=
  if String.eqb name "YAMLError"
  then [ "MarkedYAMLError"; "ScannerError"; "ParserError"; "ComposerError";
         "ConstructorError"; "ReaderError"; "EmitterError";
         "SerializerError"; "RepresenterError" ]
  else [].

(** [except (names)]: the class of [e] is one of [names], or derives
    from one of them. *)
Definition exn_named (names : list string) (e : Exn) : bool :=
  match e with
  | OtherException n =>
      existsb (fun c => String.eqb n c || existsb (String.eqb n) (subclasses_of c))
        names
  | _ => false
  end.

Definition load_config (fs : FS) (config_file : string)
    : option Exn * list Event :=
  match load_yaml fs config_file with
  | None => (None, [])
  | Some e =>
      if exn_named ["FileNotFoundError"; "YAMLError"] e
      then (None, [Log (ErrorConfig config_file)])
      else (Some e, [])
  end.

Definition default_log_file : string :=
  if String.eqb os_name "nt"
  then path_join (path_join home ".kalpak") "kalpak.log"
  else "/var/log/kalpak.log".

(** The part of [main] that runs once the URLs are known. *)
Definition main_download (args : Namespace) (urls : list string)
    (fs : FS) (st : RunState) : Exit * list Event * FS :=
  let '(cfg_exn, cfg_evs) :=
    match arg_config args with
    | Some c => if str_truthy c then load_config fs c else (None, [])
    | None => (None, [])
    end in
  match cfg_exn with
  | Some e => (Uncaught e, cfg_evs, fs)
  | None =>
      let '(fs', evs, exn) :=
        download_urls urls (arg_dest args) (arg_retries args)
          (arg_max_connections args) (arg_resume args) fs st in
      (match exn with Some e => Uncaught e | None => Finished end,
       cfg_evs ++ evs, fs')
  end.

(** The part of [main] that runs once logging is set up. *)
Definition main_urls (args : Namespace) (fs : FS) (st : RunState)
    : Exit * list Event * FS :=
  if truthy (arg_file args) then
    match load_urls fs (match arg_file args with Some f => f | None => "" end) with
    | inr urls => main_download args urls fs st
    | inl e =>
        if exn_named ["FileNotFoundError"; "JSONDecodeError"] e
        then (SysExit 1, [Log ErrorReadingURLs], fs)
        else (Uncaught e, [], fs)
    end
  else
    match arg_url args with
    | Some (u :: us) => main_download args (u :: us) fs st
    | _ => (SysExit 1, [Log ErrorNoURLs], fs)
    end.

Definition main (argv : Namespace) (fs : FS) (st : RunState)
    : Exit * list Event * FS :=
  match parse_args argv with
  | (inl code, evs) => (SysExit code, evs, fs)
  | (inr args, evs0) =>
      let log_file :=
        if truthy (arg_log args)
        then match arg_log args with Some l => l | None => "" end
        else default_log_file in
      let log_dir := path_dirname log_file in
      let '(exit1, evs1, fs1) :=
        if String.eqb os_name "nt" && negb (path_exists fs log_dir) then
          match makedirs fs log_dir with
          | (fs', None) => (None, [Log (InfoCreatedDir log_dir)], fs')
          | (fs', Some e) =>
              (Some (SysExit 1), [Log (ErrorCreateDir log_dir e)], fs')
          end
        else (None, [], fs) in
      match exit1 with
      | Some ex => (ex, evs0 ++ evs1, fs1)
      | None =>
          match open_log fs1 log_file with
          | (fs2, Some e) => (Uncaught e, evs0 ++ evs1, fs2)
          | (fs2, None) =>
              let '(ex, evs2, fs3) := main_urls args fs2 st in
              (ex, evs0 ++ evs1 ++ evs2, fs3)
          end
      end
  end.

(** *** Projections of a run *)

Definition fetch_result (url : string) (session : ClientSession)
    (retries : Z) (resume : bool) (st : RunState) : option bytes :=
  fst (fst (fetch url session retries resume st)).

Definition fetch_events (url : string) (session : ClientSession)
    (retries : Z) (resume : bool) (st : RunState) : list Event :=
  snd (fst (fetch url session retries resume st)).

Definition fetch_state (url : string) (session : ClientSession)
    (retries : Z) (resume : bool) (st : RunState) : RunState :=
  snd (fetch url session retries resume st).

(** The state in which the dispatcher awaits the task that follows
    the tasks of [done]. *)
Definition state_after (session : ClientSession) (retries : Z)
    (resume : bool) (done : list string) (st : RunState) : RunState :=
  snd (await_tasks session retries resume done st).

(** What one pass of the loop leaves in the trace once [session.get(None)]
    has been refused. *)
Definition refused_pass (headers : Headers) (attempt : Z) : list Event :=
  [ Log (DebugAttempting None (attempt + 1));
    Request None headers;
    Reply (Raised (OtherException "TypeError"));
    Log (ErrorUnexpected None (attempt + 1) (OtherException "TypeError")) ].

Definition await_results (session : ClientSession) (retries : Z)
    (resume : bool) (valid_urls : list string) (st : RunState)
    : list (string * bytes) :=
  fst (fst (await_tasks session retries resume valid_urls st)).

Definition await_events (session : ClientSession) (retries : Z)
    (resume : bool) (valid_urls : list string) (st : RunState)
    : list Event :=
  snd (fst (await_tasks session retries resume valid_urls st)).

Definition download_events (urls : list string) (output_dir : string)
    (retries : Z) (max_connections : Z) (resume : bool)
    (fs : FS) (st : RunState) : list Event :=
  snd (fst (download_urls urls output_dir retries max_connections resume
              fs st)).

(** The text of the specification on the identification string: the
    [i]-th attempt of a call carries a value chosen for that attempt,
    that is, by the [i]-th draw counted from the start of the call. *)
Definition rotated_per_attempt (g : nat) (evs : list Event) : Prop :=
  forall i q, nth_error (requests evs) i = Some q ->
    headers_get (snd q) "User-Agent"
    = Some (random_choice (g + i) USER_AGENTS).

Definition save_events (fs : FS) (data : PyDict) (output_dir : string)
    : list Event :=
  snd (fst (save_to_directory fs data output_dir)).

(** The path under which the entry of [url] is written. *)
Definition file_path_of (output_dir url : string) : string :=
  path_join output_dir
    (match get_filename_from_url url with Some f => f | None => "" end).

(** The file system as the write loop finds it after the entries of
    [before]. *)
Definition fs_after_items (fs : FS) (before : list (string * bytes))
    (output_dir : string) : FS :=
  fst (fst (save_items fs before output_dir)).

(** The file system in which the write loop starts; [None] when the
    directory is missing and cannot be created. *)
Definition start_of_writes (fs : FS) (output_dir : string) : option FS :=
  if path_exists fs output_dir then Some fs
  else match makedirs fs output_dir with
       | (fs1, None) => Some fs1
       | (_, Some _) => None
       end.

Definition main_exit (argv : Namespace) (fs : FS) (st : RunState) : Exit :=
  fst (fst (main argv fs st)).

Definition main_events (argv : Namespace) (fs : FS) (st : RunState)
    : list Event :=
  snd (fst (main argv fs st)).

(** The process from its command line: [parser.parse_args()] first,
    which may end it, then [main] on the namespace. *)
Definition process (cmd : CommandLine) (fs : FS) (st : RunState)
    : Exit * list Event * FS :=
  match cmd with
  | Parsed argv => main argv fs st
  | HelpOrVersion => (SysExit 0, [], fs)
  | UsageError => (SysExit 2, [], fs)
  end.

(** The course of events the specification describes for a redirect:
    attempt [k] comes back with a redirect status and a [Location]
    header, and attempt [k + 1] comes back with a 200. *)
Definition redirect_on_attempt_then_ok (evs : list Event) (k : nat) : Prop :=
  exists r loc r2,
    nth_error (replies evs) k = Some (Responded r) /\
    ((status r =? 301) || (status r =? 302) || (status r =? 303))%Z = true /\
    location r = Some loc /\
    nth_error (replies evs) (S k) = Some (Responded r2) /\
    status r2 = 200%Z.

(** The log file [main] settles on. *)
Definition log_file_for (args : Namespace) : string :=
  if truthy (arg_log args)
  then match arg_log args with Some l => l | None => "" end
  else default_log_file.

(** [main] up to and including [setup_logging]: either the process has
    ended ([inl]), or the URLs are read next, with the events so far and
    the file system as it is then ([inr]).  Lemma [main_startup] shows
    that [main] is this followed by [main_urls]. *)
Definition startup (argv : Namespace) (fs : FS)
    : (Exit * list Event * FS) + (list Event * FS) :=
  match parse_args argv with
  | (inl code, evs) => inl (SysExit code, evs, fs)
  | (inr args, evs0) =>
      let log_file := log_file_for args in
      let log_dir := path_dirname log_file in
      if String.eqb os_name "nt" && negb (path_exists fs log_dir) then
        match makedirs fs log_dir with
        | (fs1, Some e) =>
            inl (SysExit 1, evs0 ++ [Log (ErrorCreateDir log_dir e)], fs1)
        | (fs1, None) =>
            match open_log fs1 log_file with
            | (fs2, Some e) =>
                inl (Uncaught e, evs0 ++ [Log (InfoCreatedDir log_dir)], fs2)
            | (fs2, None) =>
                inr (evs0 ++ [Log (InfoCreatedDir log_dir)], fs2)
            end
        end
      else
        match open_log fs log_file with
        | (fs2, Some e) => inl (Uncaught e, evs0 ++ [], fs2)
        | (fs2, None) => inr (evs0 ++ [], fs2)
        end
  end.

(** A redirect status, as [fetch] tests it. *)
Definition is_redirect (code : Z) : bool :=
  ((code =? 301) || (code =? 302) || (code =? 303))%Z.

(** An attempt that ends in the first [except] clause: [session.get]
    raises a network-class error, or the body of a 200 cannot be read
    for such a reason. *)
Definition network_error_outcome (o : Outcome) : bool :=
  match o with
  | Raised e => network_class e
  | Responded r =>
      (status r =? 200)%Z &&
      match read r with inl e => network_class e | inr _ => false end
  end.

(** ** Properties of the retry loop *)

Lemma requests_app (a b : list Event) :
  requests (a ++ b) = requests a ++ requests b.
Proof.
  induction a as [|e a IH]; simpl; [reflexivity|].
  destruct e; simpl; rewrite ?IH; reflexivity.
Qed.

Lemma handle_exception_continues url attempt e :
  fst (handle_exception url attempt e) = Continue url /\
  requests (snd (handle_exception url attempt e)) = [].
Proof. unfold handle_exception; destruct (network_class e); simpl; auto. Qed.

Lemma on_response_no_request url attempt r :
  requests (snd (on_response url attempt r)) = [].
Proof.
  unfold on_response.
  destruct (status r =? 200)%Z.
  - destruct (read r); [apply handle_exception_continues | reflexivity].
  - destruct (_ || _); [|reflexivity].
    destruct (truthy (location r)); reflexivity.
Qed.

(** Each pass through the loop body issues one request, on the working
    URL and with the headers of the call. *)
Lemma attempt_body_requests session headers t attempt url :
  requests (snd (attempt_body session headers t attempt url))
  = [(url, headers)].
Proof.
  unfold attempt_body.
  destruct (session_get session t url headers) as [r|e].
  - pose proof (on_response_no_request url attempt r) as H.
    destruct (on_response url attempt r) as [ctl evs]; simpl in *.
    now rewrite H.
  - pose proof (handle_exception_continues url attempt e) as [_ H].
    destruct (handle_exception url attempt e) as [ctl evs]; simpl in *.
    now rewrite H.
Qed.

(** A loop in which every pass ends in [Continue] runs through all its
    attempt numbers and returns [None].  [us i] is the working URL at
    the start of pass [i]. *)
Lemma fetch_loop_exhausts session headers :
  forall (attempts : list Z) (t : nat) (us : nat -> option string),
    (forall i, i < List.length attempts ->
       fst (attempt_body session headers (t + i) (nth i attempts 0%Z) (us i))
       = Continue (us (S i))) ->
    fst (fst (fetch_loop session headers attempts t (us 0))) = None /\
    requests (snd (fst (fetch_loop session headers attempts t (us 0))))
    = map (fun i => (us i, headers)) (seq 0 (List.length attempts)) /\
    snd (fetch_loop session headers attempts t (us 0))
    = t + List.length attempts.
Proof.
  induction attempts as [|a rest IH]; intros t us Hstep.
  - simpl. repeat split. lia.
  - pose proof (Hstep 0 ltac:(simpl; lia)) as H0.
    rewrite Nat.add_0_r in H0. simpl nth in H0.
    pose proof (attempt_body_requests session headers t a (us 0)) as Hreq.
    specialize (IH (S t) (fun i => us (S i))).
    cbn beta in IH.
    assert (Hrest : forall i, i < List.length rest ->
              fst (attempt_body session headers (S t + i) (nth i rest 0%Z)
                     (us (S i))) = Continue (us (S (S i)))).
    { intros i Hi. specialize (Hstep (S i) ltac:(simpl; lia)).
      replace (t + S i) with (S t + i) in Hstep by lia. exact Hstep. }
    destruct (IH Hrest) as (Hres & Hreqs & Hclk).
    cbn [fetch_loop].
    destruct (attempt_body session headers t a (us 0)) as [ctl evs].
    simpl in H0, Hreq. subst ctl.
    destruct (fetch_loop session headers rest (S t) (us 1))
      as [[res evs'] t'] eqn:E.
    simpl in *. subst res t'.
    repeat split.
    + rewrite requests_app, Hreq, Hreqs. simpl. f_equal.
      rewrite <- seq_shift, map_map. reflexivity.
    + lia.
Qed.

Lemma attempt_body_control session headers t attempt url :
  fst (attempt_body session headers t attempt url)
  = match session_get session t url headers with
    | Responded r => fst (on_response url attempt r)
    | Raised e => fst (handle_exception url attempt e)
    end.
Proof.
  unfold attempt_body.
  destruct (session_get session t url headers) as [r|e].
  - destruct (on_response url attempt r); reflexivity.
  - destruct (handle_exception url attempt e); reflexivity.
Qed.

Lemma network_error_continues session headers t attempt u :
  network_error_outcome (network t u headers) = true ->
  fst (attempt_body session headers t attempt (Some u)) = Continue (Some u).
Proof.
  intros H. rewrite attempt_body_control. simpl.
  destruct (network t u headers) as [r|e]; simpl in H.
  - apply andb_true_iff in H as [H200 Hread].
    unfold on_response. rewrite H200.
    destruct (read r) as [e|c]; [|discriminate].
    apply handle_exception_continues.
  - apply handle_exception_continues.
Qed.

Lemma redirect_continues session headers t attempt u r :
  network t u headers = Responded r ->
  is_redirect (status r) = true ->
  fst (attempt_body session headers t attempt (Some u))
  = Continue (location r).
Proof.
  intros Hnet Hred. rewrite attempt_body_control. simpl. rewrite Hnet.
  unfold on_response. unfold is_redirect in Hred.
  destruct (status r =? 200)%Z eqn:E200.
  - apply Z.eqb_eq in E200. rewrite E200 in Hred. discriminate.
  - rewrite Hred. destruct (truthy (location r)); reflexivity.
Qed.

Lemma fetch_unfold url session retries resume st :
  fetch url session retries resume st
  = let run := fetch_loop session (build_headers (draws st) resume)
                 (range retries) (clock st) (Some url) in
    (fst (fst run), FetchCalled url :: snd (fst run),
     mkState (snd run) (S (draws st))).
Proof.
  unfold fetch.
  destruct (fetch_loop _ _ _ _ _) as [[res evs] t']. reflexivity.
Qed.

Lemma range_length n : List.length (range n) = Z.to_nat n.
Proof. unfold range. now rewrite length_map, length_seq. Qed.

(** C1. For every number of retries N >= 1, a call of [fetch] on a URL
    whose every request ends in a network-class error makes exactly N
    attempts, all on that URL, and returns [None]. *)
Theorem fetch_network_errors_use_all_retries :
  forall url session retries resume st,
    (1 <= retries)%Z ->
    (forall t h, network_error_outcome (network t url h) = true) ->
    fetch_result url session retries resume st = None /\
    Z.of_nat (attempts_made (fetch_events url session retries resume st))
    = retries /\
    requests (fetch_events url session retries resume st)
    = repeat (Some url, build_headers (draws st) resume) (Z.to_nat retries).
Proof.
  intros url session retries resume st Hn Herr.
  unfold fetch_result, fetch_events, attempts_made.
  rewrite fetch_unfold. cbn [fst snd requests].
  set (headers := build_headers (draws st) resume).
  destruct (fetch_loop_exhausts session headers (range retries) (clock st)
              (fun _ => Some url)) as (Hres & Hreq & _).
  { intros i _. apply network_error_continues, Herr. }
  cbn beta in Hres, Hreq. rewrite Hres, Hreq, range_length.
  assert (Hrep : forall n k, map (fun _ : nat => (Some url, headers)) (seq k n)
                             = repeat (Some url, headers) n).
  { induction n as [|n IH]; intros k; simpl; [|rewrite IH]; reflexivity. }
  rewrite Hrep, repeat_length. repeat split. lia.
Qed.

(** C4. For every N >= 1, when the first request of a call is answered
    with a status outside 200..399, the call logs the status, makes no
    second attempt and returns [None]. *)
Theorem fetch_fatal_status_is_not_retried :
  forall url session retries resume st r,
    (1 <= retries)%Z ->
    network (clock st) url (build_headers (draws st) resume) = Responded r ->
    (status r < 200 \/ 400 <= status r)%Z ->
    fetch_result url session retries resume st = None /\
    attempts_made (fetch_events url session retries resume st) = 1 /\
    In (Log (ErrorStatus (Some url) (status r) (reason r)))
       (fetch_events url session retries resume st).
Proof.
  intros url session retries resume st r Hn Hnet Hst.
  unfold fetch_result, fetch_events, attempts_made.
  rewrite fetch_unfold. cbn [fst snd requests].
  set (headers := build_headers (draws st) resume) in *.
  unfold range. destruct (Z.to_nat retries) as [|n] eqn:En; [lia|].
  cbn [seq map fetch_loop]. unfold attempt_body. simpl session_get.
  rewrite Hnet. unfold on_response.
  replace (status r =? 200)%Z with false by (symmetry; apply Z.eqb_neq; lia).
  replace (status r =? 301)%Z with false by (symmetry; apply Z.eqb_neq; lia).
  replace (status r =? 302)%Z with false by (symmetry; apply Z.eqb_neq; lia).
  replace (status r =? 303)%Z with false by (symmetry; apply Z.eqb_neq; lia).
  simpl. repeat split. auto 6.
Qed.

(** *** Reaching an attempt *)

Lemma fetch_loop_continue_step session headers a rest t url url' :
  fst (attempt_body session headers t a url) = Continue url' ->
  let run := fetch_loop session headers (a :: rest) t url in
  let next := fetch_loop session headers rest (S t) url' in
  fst (fst run) = fst (fst next) /\
  snd (fst run)
  = snd (attempt_body session headers t a url) ++ snd (fst next) /\
  snd run = snd next.
Proof.
  intros H. cbn [fetch_loop].
  destruct (attempt_body session headers t a url) as [ctl evs].
  simpl in H. subst ctl.
  destruct (fetch_loop session headers rest (S t) url') as [[res evs'] t'].
  simpl. auto.
Qed.

Lemma fetch_loop_return_step session headers a rest t url content :
  fst (attempt_body session headers t a url) = Return content ->
  fst (fst (fetch_loop session headers (a :: rest) t url)) = Some content.
Proof.
  intros H. cbn [fetch_loop].
  destruct (attempt_body session headers t a url) as [ctl evs].
  simpl in H. subst ctl. reflexivity.
Qed.

(** If the trace of a loop has a [k]-th request, the loop from its
    [k]-th pass on is the same loop started there: same result, and
    its events follow those of the first [k] passes. *)
Lemma fetch_loop_reach session headers :
  forall (attempts : list Z) (k t : nat) (url u : option string) h,
    nth_error
      (requests (snd (fst (fetch_loop session headers attempts t url)))) k
    = Some (u, h) ->
    h = headers /\
    k < List.length attempts /\
    exists pre,
      List.length (requests pre) = k /\
      snd (fst (fetch_loop session headers attempts t url))
      = pre ++ snd (fst (fetch_loop session headers
                           (skipn k attempts) (t + k) u)) /\
      fst (fst (fetch_loop session headers attempts t url))
      = fst (fst (fetch_loop session headers (skipn k attempts) (t + k) u)) /\
      snd (fetch_loop session headers attempts t url)
      = snd (fetch_loop session headers (skipn k attempts) (t + k) u).
Proof.
  induction attempts as [|a rest IH]; intros k t url u h Hk.
  - destruct k; discriminate.
  - pose proof (attempt_body_requests session headers t a url) as Hreq.
    destruct k as [|k].
    + assert (Hhd : (u, h) = (url, headers)).
      { cbn [fetch_loop] in Hk.
        destruct (attempt_body session headers t a url) as [ctl evs].
        simpl in Hreq.
        destruct ctl as [c|url'|];
          [ | destruct (fetch_loop session headers rest (S t) url')
                as [[res evs'] t'] | ];
          simpl in Hk; rewrite ?requests_app, Hreq in Hk;
          simpl in Hk; congruence. }
      inversion Hhd; subst. rewrite Nat.add_0_r.
      split; [reflexivity|]. split; [simpl; lia|].
      exists []. simpl skipn. auto.
    + destruct (fst (attempt_body session headers t a url)) as [c|url'|] eqn:Ectl.
      * exfalso. cbn [fetch_loop] in Hk.
        destruct (attempt_body session headers t a url) as [ctl evs].
        simpl in Ectl, Hreq. subst ctl. simpl in Hk.
        rewrite Hreq in Hk. destruct k; discriminate.
      * destruct (fetch_loop_continue_step session headers a rest t url url'
                    Ectl) as (Hres & Hevs & Hclk).
        rewrite Hevs, requests_app, Hreq in Hk. simpl in Hk.
        destruct (IH k (S t) url' u h Hk)
          as (Hh & Hlen & pre & Hpre & Hevs' & Hres' & Hclk').
        split; [exact Hh|]. split; [simpl; lia|].
        exists (snd (attempt_body session headers t a url) ++ pre).
        replace (t + S k) with (S t + k) by lia. simpl skipn.
        rewrite requests_app, Hreq, Hres, Hevs, Hclk.
        rewrite <- app_assoc, <- Hevs'. simpl. auto.
      * exfalso. cbn [fetch_loop] in Hk.
        destruct (attempt_body session headers t a url) as [ctl evs].
        simpl in Ectl, Hreq. subst ctl. simpl in Hk.
        rewrite Hreq in Hk. destruct k; discriminate.
Qed.

(** Once the working URL is [None], every pass is refused and logged,
    and the loop runs to its end. *)
Lemma fetch_loop_on_none session headers :
  forall (attempts : list Z) (t : nat),
    fetch_loop session headers attempts t None
    = (None, flat_map (refused_pass headers) attempts,
       t + List.length attempts).
Proof.
  induction attempts as [|a rest IH]; intros t.
  - simpl. now rewrite Nat.add_0_r.
  - cbn [fetch_loop]. unfold attempt_body, session_get, handle_exception.
    cbn [network_class]. rewrite IH. simpl. do 2 f_equal. lia.
Qed.

Lemma requests_refused headers (attempts : list Z) :
  requests (flat_map (refused_pass headers) attempts)
  = repeat (None, headers) (List.length attempts).
Proof.
  induction attempts as [|a rest IH]; simpl; [|rewrite IH]; reflexivity.
Qed.

Lemma skipn_cons_nth {A} (d : A) :
  forall (l : list A) k, k < List.length l ->
    skipn k l = nth k l d :: skipn (S k) l.
Proof.
  induction l as [|x l IH]; intros k Hk; simpl in Hk; [lia|].
  destruct k; [reflexivity|]. simpl. apply IH. lia.
Qed.

Lemma range_nth n j :
  j < Z.to_nat n -> nth j (range n) 0%Z = Z.of_nat j.
Proof.
  intros Hj. unfold range.
  change 0%Z with (Z.of_nat 0). rewrite map_nth, seq_nth; auto.
Qed.

Lemma fetch_requests_unfold url session retries resume st :
  requests (fetch_events url session retries resume st)
  = requests (snd (fst (fetch_loop session (build_headers (draws st) resume)
                          (range retries) (clock st) (Some url)))).
Proof. unfold fetch_events. now rewrite fetch_unfold. Qed.

Lemma range_skipn n k :
  skipn k (range n) = map Z.of_nat (seq k (Z.to_nat n - k)).
Proof. unfold range. now rewrite skipn_map, skipn_seq. Qed.

(** C10. When the [k]-th request of a call is answered by a redirect
    status without a [Location] header, the loop is not left: the
    working URL becomes [None], every later attempt is made on [None],
    is refused and logged by the second [except] clause, and the call
    returns [None] after all its attempts. *)
Theorem fetch_redirect_without_location_runs_out :
  forall url session retries resume st (k : nat) u h r,
    nth_error (requests (fetch_events url session retries resume st)) k
    = Some (Some u, h) ->
    network (clock st + k) u h = Responded r ->
    is_redirect (status r) = true ->
    location r = None ->
    fetch_result url session retries resume st = None /\
    attempts_made (fetch_events url session retries resume st)
    = Z.to_nat retries /\
    (forall j, k < j < Z.to_nat retries ->
       nth_error (requests (fetch_events url session retries resume st)) j
       = Some (None, h) /\
       In (Log (ErrorUnexpected None (Z.of_nat j + 1)
                  (OtherException "TypeError")))
          (fetch_events url session retries resume st)).
Proof.
  intros url session retries resume st k u h r Hk Hnet Hred Hloc.
  rewrite fetch_requests_unfold in Hk.
  set (headers := build_headers (draws st) resume) in *.
  destruct (fetch_loop_reach session headers _ _ _ _ _ _ Hk)
    as (Hh & Hlen & pre & Hpre & Hevs & Hres & _).
  subst h. rewrite range_length in Hlen.
  rewrite (skipn_cons_nth 0%Z) in Hevs, Hres
    by (rewrite range_length; exact Hlen).
  pose proof (redirect_continues session headers (clock st + k)
                (nth k (range retries) 0%Z) u r Hnet Hred) as Hctl.
  rewrite Hloc in Hctl.
  destruct (fetch_loop_continue_step session headers _
              (skipn (S k) (range retries)) _ _ _ Hctl) as (Hres1 & Hevs1 & _).
  rewrite fetch_loop_on_none in Hres1, Hevs1. cbn [fst snd] in Hres1, Hevs1.
  rewrite Hevs1 in Hevs. rewrite Hres1 in Hres. clear Hres1 Hevs1.
  assert (Hreqs :
    requests (fetch_events url session retries resume st)
    = requests pre ++ (Some u, headers)
        :: repeat (None, headers) (Z.to_nat retries - S k)).
  { rewrite fetch_requests_unfold. fold headers.
    rewrite Hevs, !requests_app, attempt_body_requests, requests_refused.
    rewrite length_skipn, range_length. reflexivity. }
  split; [|split].
  - unfold fetch_result. rewrite fetch_unfold. exact Hres.
  - unfold attempts_made. rewrite Hreqs, length_app. simpl.
    rewrite repeat_length. lia.
  - intros j Hj. split.
    + rewrite Hreqs, nth_error_app2 by lia. rewrite Hpre.
      destruct (j - k) as [|d] eqn:Ed; [lia|]. simpl.
      apply nth_error_repeat. lia.
    + unfold fetch_events. rewrite fetch_unfold. cbn [fst snd].
      fold headers. rewrite Hevs. right.
      apply in_or_app. right. apply in_or_app. right.
      apply in_flat_map. exists (Z.of_nat j). split.
      * rewrite range_skipn. apply in_map, in_seq. lia.
      * unfold refused_pass. simpl. auto.
Qed.

(** ** Properties of the dispatcher *)

Lemma await_tasks_cons session retries resume url rest st :
  let st1 := fetch_state url session retries resume st in
  await_results session retries resume (url :: rest) st
  = match fetch_result url session retries resume st with
    | Some c => [(url, c)]
    | None => []
    end ++ await_results session retries resume rest st1 /\
  await_events session retries resume (url :: rest) st
  = fetch_events url session retries resume st
    ++ match fetch_result url session retries resume st with
       | Some _ => []
       | None => [Log (ErrorFailedFetch url)]
       end ++ await_events session retries resume rest st1 /\
  state_after session retries resume (url :: rest) st
  = state_after session retries resume rest st1.
Proof.
  unfold await_results, await_events, state_after,
    fetch_state, fetch_result, fetch_events.
  cbn [await_tasks].
  destruct (fetch url session retries resume st) as [[content evs] st1].
  cbn [fst snd].
  destruct (await_tasks session retries resume rest st1)
    as [[results evs'] st2].
  destruct content; simpl; auto.
Qed.


(** The dispatcher stores a result under the URL it was given. *)
Lemma await_results_keys session retries resume :
  forall valid_urls st k,
    In k (map fst (await_results session retries resume valid_urls st)) ->
    In k valid_urls.
Proof.
  induction valid_urls as [|url rest IH]; intros st k Hk.
  - exact Hk.
  - destruct (await_tasks_cons session retries resume url rest st)
      as (R & _ & _).
    rewrite R, map_app in Hk. apply in_app_or in Hk as [Hk|Hk].
    + left. destruct (fetch_result url session retries resume st);
        simpl in Hk; [destruct Hk as [Hk|[]]; exact Hk | destruct Hk].
    + right. eapply IH, Hk.
Qed.

(** *** Dictionaries *)

Lemma dict_get_set_same d k v : dict_get (dict_set d k v) k = Some v.
Proof.
  induction d as [|[k' v'] d IH]; simpl.
  - now rewrite String.eqb_refl.
  - destruct (String.eqb k' k) eqn:E; simpl; rewrite E; auto.
Qed.

Lemma dict_get_set_other d k v k' :
  k <> k' -> dict_get (dict_set d k v) k' = dict_get d k'.
Proof.
  intros Hne. induction d as [|[k0 v0] d IH]; simpl.
  - apply String.eqb_neq in Hne. now rewrite Hne.
  - destruct (String.eqb k0 k) eqn:E; simpl.
    + apply String.eqb_eq in E. subst k0.
      apply String.eqb_neq in Hne. now rewrite Hne.
    + now rewrite IH.
Qed.

Lemma dict_get_fold_other k :
  forall pairs d,
    ~ In k (map fst pairs) ->
    dict_get (fold_left (fun d kv => dict_set d (fst kv) (snd kv)) pairs d) k
    = dict_get d k.
Proof.
  induction pairs as [|[k0 v0] pairs IH]; intros d Hk; simpl; [reflexivity|].
  simpl in Hk. rewrite IH.
  - apply dict_get_set_other. intros E. apply Hk. left. exact E.
  - intros Hin. apply Hk. right. exact Hin.
Qed.

(** In [dict(pairs)] a key holds the value of its last pair. *)
Lemma dict_get_last k v before after :
  ~ In k (map fst after) ->
  dict_get (dict (before ++ (k, v) :: after)) k = Some v.
Proof.
  intros Hk. unfold dict. rewrite fold_left_app. simpl.
  rewrite dict_get_fold_other by exact Hk. apply dict_get_set_same.
Qed.

Lemma dict_get_absent k pairs :
  ~ In k (map fst pairs) -> dict_get (dict pairs) k = None.
Proof. intros Hk. unfold dict. now rewrite dict_get_fold_other. Qed.

Lemma ok_response_returns session headers t attempt u r content :
  network t u headers = Responded r ->
  status r = 200%Z ->
  read r = inr content ->
  fst (attempt_body session headers t attempt (Some u)) = Return content.
Proof.
  intros Hnet H200 Hread. rewrite attempt_body_control. simpl.
  rewrite Hnet. unfold on_response. now rewrite H200, Hread.
Qed.

(** *** Traces of local events *)

Lemma fetch_calls_app (a b : list Event) :
  fetch_calls (a ++ b) = fetch_calls a ++ fetch_calls b.
Proof.
  induction a as [|e a IH]; simpl; [reflexivity|].
  destruct e; simpl; rewrite ?IH; reflexivity.
Qed.

Lemma in_flight_app (a b : list Event) :
  in_flight (a ++ b) = (in_flight a + in_flight b)%Z.
Proof.
  induction a as [|e a IH]; [reflexivity|].
  destruct e; cbn [app in_flight]; rewrite ?IH; lia.
Qed.

Lemma one_at_a_time_nil : one_at_a_time [].
Proof. split; [reflexivity|]. intros [|n]; simpl; lia. Qed.

Lemma one_at_a_time_quiet e l :
  quiet e = true -> one_at_a_time l -> one_at_a_time (e :: l).
Proof.
  intros Hq [Hend Hpre]. split.
  - destruct e; try discriminate; exact Hend.
  - intros [|n]; [simpl; lia|].
    specialize (Hpre n). destruct e; try discriminate; exact Hpre.
Qed.

Lemma one_at_a_time_exchange u h o l :
  one_at_a_time l -> one_at_a_time (Request u h :: Reply o :: l).
Proof.
  intros [Hend Hpre]. split.
  - cbn [in_flight]. lia.
  - intros [|[|n]]; cbn [firstn in_flight]; try lia.
    specialize (Hpre n). lia.
Qed.

Lemma one_at_a_time_app a b :
  one_at_a_time a -> one_at_a_time b -> one_at_a_time (a ++ b).
Proof.
  intros [Ha Hpa] [Hb Hpb]. split.
  - rewrite in_flight_app. lia.
  - intros n. rewrite firstn_app, in_flight_app.
    destruct (Nat.le_gt_cases n (List.length a)) as [Hn|Hn].
    + replace (n - List.length a) with 0 by lia.
      specialize (Hpa n). simpl. lia.
    + rewrite (firstn_all2 a) by lia.
      specialize (Hpb (n - List.length a)). lia.
Qed.

Lemma local_trace evs :
  forallb local evs = true ->
  fetch_calls evs = [] /\ requests evs = [] /\ one_at_a_time evs.
Proof.
  induction evs as [|e evs IH]; intros H.
  - split; [|split]; [reflexivity | reflexivity | apply one_at_a_time_nil].
  - simpl in H. apply andb_true_iff in H as [He Hevs].
    destruct (IH Hevs) as (Hc & Hr & Ho).
    destruct e; try discriminate; simpl;
      (split; [|split]; [assumption | assumption |]);
      apply one_at_a_time_quiet; auto.
Qed.

Lemma handle_exception_local url attempt e :
  forallb local (snd (handle_exception url attempt e)) = true.
Proof. unfold handle_exception. destruct (network_class e); reflexivity. Qed.

Lemma on_response_local url attempt r :
  forallb local (snd (on_response url attempt r)) = true.
Proof.
  unfold on_response. destruct (status r =? 200)%Z.
  - destruct (read r); [apply handle_exception_local | reflexivity].
  - destruct (_ || _); [|reflexivity].
    destruct (truthy (location r)); reflexivity.
Qed.

(** One pass of the loop: a log record, the request, its reply, then
    local events only. *)
Lemma attempt_body_shape session headers t attempt url :
  exists o evs,
    snd (attempt_body session headers t attempt url)
    = Log (DebugAttempting url (attempt + 1))
        :: Request url headers :: Reply o :: evs /\
    forallb local evs = true.
Proof.
  unfold attempt_body.
  destruct (session_get session t url headers) as [r|e] eqn:E.
  - pose proof (on_response_local url attempt r) as H.
    destruct (on_response url attempt r) as [ctl evs].
    exists (Responded r), evs. auto.
  - pose proof (handle_exception_local url attempt e) as H.
    destruct (handle_exception url attempt e) as [ctl evs].
    exists (Raised e), evs. auto.
Qed.

Lemma attempt_body_trace session headers t attempt url :
  fetch_calls (snd (attempt_body session headers t attempt url)) = [] /\
  one_at_a_time (snd (attempt_body session headers t attempt url)).
Proof.
  destruct (attempt_body_shape session headers t attempt url)
    as (o & evs & -> & Hloc).
  destruct (local_trace evs Hloc) as (Hc & _ & Ho).
  split; [exact Hc|].
  apply one_at_a_time_quiet; [reflexivity|].
  now apply one_at_a_time_exchange.
Qed.

Lemma fetch_loop_trace session headers :
  forall attempts t url,
    fetch_calls (snd (fst (fetch_loop session headers attempts t url))) = [] /\
    one_at_a_time (snd (fst (fetch_loop session headers attempts t url))).
Proof.
  induction attempts as [|a rest IH]; intros t url.
  - split; [reflexivity | apply one_at_a_time_nil].
  - destruct (attempt_body_trace session headers t a url) as [Hc Ho].
    cbn [fetch_loop].
    destruct (attempt_body session headers t a url) as [[c|url'|] evs];
      simpl in Hc, Ho; try (split; assumption).
    specialize (IH (S t) url').
    destruct (fetch_loop session headers rest (S t) url')
      as [[res evs'] t']. simpl in *. destruct IH as [Hc' Ho'].
    rewrite fetch_calls_app, Hc, Hc'.
    split; [reflexivity | now apply one_at_a_time_app].
Qed.

(** One call of [fetch] in the trace: it starts once, and its
    requests do not overlap. *)
Lemma fetch_trace url session retries resume st :
  fetch_calls (fetch_events url session retries resume st) = [url] /\
  one_at_a_time (fetch_events url session retries resume st).
Proof.
  unfold fetch_events. rewrite fetch_unfold. cbn [fst snd].
  destruct (fetch_loop_trace session (build_headers (draws st) resume)
              (range retries) (clock st) (Some url)) as [Hc Ho].
  split.
  - simpl. now rewrite Hc.
  - now apply one_at_a_time_quiet.
Qed.

Lemma await_trace session retries resume :
  forall valid_urls st,
    fetch_calls (await_events session retries resume valid_urls st)
    = valid_urls /\
    one_at_a_time (await_events session retries resume valid_urls st).
Proof.
  induction valid_urls as [|url rest IH]; intros st.
  - split; [reflexivity | apply one_at_a_time_nil].
  - destruct (await_tasks_cons session retries resume url rest st)
      as (_ & E & _).
    destruct (fetch_trace url session retries resume st) as [Hc Ho].
    destruct (IH (fetch_state url session retries resume st)) as [Hc' Ho'].
    rewrite E, !fetch_calls_app, Hc, Hc'. split.
    + destruct (fetch_result url session retries resume st); reflexivity.
    + apply one_at_a_time_app; [exact Ho|].
      apply one_at_a_time_app; [|exact Ho'].
      destruct (fetch_result url session retries resume st);
        [apply one_at_a_time_nil|].
      apply one_at_a_time_quiet; [reflexivity | apply one_at_a_time_nil].
Qed.

Lemma save_items_local :
  forall items fs output_dir,
    forallb local (snd (fst (save_items fs items output_dir))) = true.
Proof.
  induction items as [|[url content] rest IH]; intros fs output_dir.
  - reflexivity.
  - cbn [save_items].
    destruct (get_filename_from_url url) as [filename|]; [|reflexivity].
    destruct (write_file fs (path_join output_dir filename) content)
      as [fs1 err].
    specialize (IH fs1 output_dir).
    destruct (save_items fs1 rest output_dir) as [[fs2 evs] exn].
    exact IH.
Qed.

Lemma save_to_directory_local fs data output_dir :
  forallb local (snd (fst (save_to_directory fs data output_dir))) = true.
Proof.
  unfold save_to_directory.
  destruct (negb (path_exists fs output_dir)).
  - destruct (makedirs fs output_dir) as [fs1 [e|]]; [reflexivity|].
    pose proof (save_items_local data fs1 output_dir) as H.
    destruct (save_items fs1 data output_dir) as [[fs2 evs] exn].
    exact H.
  - apply save_items_local.
Qed.

Lemma download_events_unfold urls output_dir retries max_connections resume
      fs st :
  let session := mkSession max_connections in
  let valid_urls := filter is_valid_url urls in
  download_events urls output_dir retries max_connections resume fs st
  = map (fun url => Log (WarningInvalidURL url))
      (filter (fun url => negb (is_valid_url url)) urls)
    ++ await_events session retries resume valid_urls st
    ++ snd (fst (save_to_directory fs
                   (dict (await_results session retries resume valid_urls st))
                   output_dir)).
Proof.
  unfold download_events, download_urls, await_events, await_results.
  cbn zeta.
  destruct (await_tasks _ retries resume _ st) as [[results fetched] st'].
  cbn [fst snd].
  destruct (save_to_directory fs (dict results) output_dir)
    as [[fs' saved] exn].
  reflexivity.
Qed.

Lemma skipped_local (invalid_urls : list string) :
  forallb local (map (fun url => Log (WarningInvalidURL url)) invalid_urls)
  = true.
Proof. induction invalid_urls; simpl; auto. Qed.

Lemma invalid_url_is_filtered url :
  (forall result, urlparse url = Some result ->
     scheme result = "" \/ netloc result = "") ->
  is_valid_url url = false.
Proof.
  intros H. unfold is_valid_url.
  destruct (urlparse url) as [result|]; [|reflexivity].
  destruct (H result eq_refl) as [E|E]; rewrite E; simpl;
    [reflexivity | apply andb_false_r].
Qed.

Lemma download_fetch_calls urls output_dir retries max_connections resume
      fs st :
  fetch_calls (download_events urls output_dir retries max_connections
                 resume fs st)
  = filter is_valid_url urls.
Proof.
  rewrite download_events_unfold. cbn zeta.
  rewrite !fetch_calls_app.
  destruct (local_trace _ (skipped_local
              (filter (fun url => negb (is_valid_url url)) urls)))
    as (-> & _ & _).
  destruct (local_trace _ (save_to_directory_local fs
              (dict (await_results (mkSession max_connections) retries resume
                       (filter is_valid_url urls) st)) output_dir))
    as (-> & _ & _).
  destruct (await_trace (mkSession max_connections) retries resume
              (filter is_valid_url urls) st) as [-> _].
  now rewrite app_nil_r.
Qed.

(** C5. For every input URL that has no scheme or no network location
    (or that [urlparse] rejects), [fetch] is never called on it: the
    dispatcher logs it as skipped, and the calls of [fetch] are exactly
    the valid entries of the input, in order. *)
Theorem invalid_urls_are_never_fetched :
  forall urls output_dir retries max_connections resume fs st url,
    (forall result, urlparse url = Some result ->
       scheme result = "" \/ netloc result = "") ->
    ~ In url (fetch_calls (download_events urls output_dir retries
                             max_connections resume fs st)) /\
    (In url urls ->
     In (Log (WarningInvalidURL url))
        (download_events urls output_dir retries max_connections
           resume fs st)) /\
    fetch_calls (download_events urls output_dir retries max_connections
                   resume fs st)
    = filter is_valid_url urls.
Proof.
  intros urls output_dir retries max_connections resume fs st url Hbad.
  pose proof (invalid_url_is_filtered url Hbad) as Hinv.
  rewrite download_fetch_calls. split; [|split].
  - intros Hin. apply filter_In in Hin as [_ Hv]. congruence.
  - intros Hin. rewrite download_events_unfold. cbn zeta.
    apply in_or_app. left.
    apply (in_map (fun url => Log (WarningInvalidURL url))).
    apply filter_In. split; [exact Hin|]. now rewrite Hinv.
  - reflexivity.
Qed.

Lemma download_one_at_a_time urls output_dir retries max_connections resume
      fs st :
  one_at_a_time (download_events urls output_dir retries max_connections
                   resume fs st).
Proof.
  rewrite download_events_unfold. cbn zeta.
  apply one_at_a_time_app; [|apply one_at_a_time_app].
  - apply local_trace, skipped_local.
  - apply await_trace.
  - apply local_trace, save_to_directory_local.
Qed.

(** C6. In a run with [max_connections = M >= 1], after any number of
    events of the run at most one request is awaiting its reply, hence
    never more than M, whatever the input list. *)
Theorem at_most_max_connections_in_flight :
  forall urls output_dir retries max_connections resume fs st n,
    (1 <= max_connections)%Z ->
    (in_flight (firstn n (download_events urls output_dir retries
                            max_connections resume fs st))
     <= max_connections)%Z /\
    (0 <= in_flight (firstn n (download_events urls output_dir retries
                                 max_connections resume fs st)) <= 1)%Z.
Proof.
  intros urls output_dir retries max_connections resume fs st n HM.
  destruct (download_one_at_a_time urls output_dir retries max_connections
              resume fs st) as [_ H].
  specialize (H n). lia.
Qed.

(** ** The identification string *)

Lemma fetch_loop_headers session headers :
  forall attempts t url q,
    In q (requests (snd (fst (fetch_loop session headers attempts t url)))) ->
    snd q = headers.
Proof.
  induction attempts as [|a rest IH]; intros t url q Hq.
  - destruct Hq.
  - pose proof (attempt_body_requests session headers t a url) as Hreq.
    cbn [fetch_loop] in Hq.
    destruct (attempt_body session headers t a url) as [[c|url'|] evs];
      simpl in Hreq.
    + simpl in Hq. rewrite Hreq in Hq.
      destruct Hq as [<-|[]]. reflexivity.
    + specialize (IH (S t) url' q).
      destruct (fetch_loop session headers rest (S t) url')
        as [[res evs'] t'].
      simpl in Hq, IH. rewrite requests_app, Hreq in Hq.
      destruct Hq as [<-|Hq]; [reflexivity | exact (IH Hq)].
    + simpl in Hq. rewrite Hreq in Hq.
      destruct Hq as [<-|[]]. reflexivity.
Qed.

(** C7, as the code has it.  The identification string of a call of
    [fetch] is one value of the fixed pool, chosen by a single draw
    when the call starts; every request of the call, first attempt or
    retry, carries that same value. *)
Theorem user_agent_is_chosen_once_per_call :
  forall url session retries resume st,
    In (random_choice (draws st) USER_AGENTS) USER_AGENTS /\
    (forall q,
       In q (requests (fetch_events url session retries resume st)) ->
       headers_get (snd q) "User-Agent"
       = Some (random_choice (draws st) USER_AGENTS)) /\
    draws (fetch_state url session retries resume st) = S (draws st).
Proof.
  intros url session retries resume st. split; [|split].
  - unfold random_choice. apply nth_In.
    apply Nat.mod_upper_bound. discriminate.
  - intros q Hq. rewrite fetch_requests_unfold in Hq.
    apply fetch_loop_headers in Hq. rewrite Hq. reflexivity.
  - unfold fetch_state. rewrite fetch_unfold. reflexivity.
Qed.

(** ** Start-up *)

(** C8. When the configured number of retries or of connections is
    below 1, [main] ends in [sys.exit(1)] with nothing in its trace
    but the log record of the validation: no request, no call of
    [fetch], and the file system untouched. *)
Theorem invalid_configuration_exits_before_any_request :
  forall argv fs st,
    (arg_retries argv < 1 \/ arg_max_connections argv < 1)%Z ->
    main_exit argv fs st = SysExit 1 /\
    (main_events argv fs st = [Log ErrorRetries] \/
     main_events argv fs st = [Log ErrorMaxConnections]) /\
    requests (main_events argv fs st) = [] /\
    fetch_calls (main_events argv fs st) = [] /\
    snd (main argv fs st) = fs.
Proof.
  intros argv fs st H.
  unfold main_exit, main_events, main, parse_args, validate_args.
  destruct (arg_retries argv <? 1)%Z eqn:Er; [simpl; auto 6|].
  destruct (arg_max_connections argv <? 1)%Z eqn:Em; [simpl; auto 6|].
  apply Z.ltb_ge in Er, Em. lia.
Qed.

(** ** Persistence *)

Lemma save_items_cons fs url content rest output_dir filename :
  get_filename_from_url url = Some filename ->
  let p := path_join output_dir filename in
  let fs1 := fst (write_file fs p content) in
  let record := match snd (write_file fs p content) with
                | None => InfoSaved p
                | Some e => ErrorSave p e
                end in
  save_items fs ((url, content) :: rest) output_dir
  = (fst (fst (save_items fs1 rest output_dir)),
     WriteFile p content :: Log record
       :: snd (fst (save_items fs1 rest output_dir)),
     snd (save_items fs1 rest output_dir)).
Proof.
  intros Hname. cbn [save_items]. rewrite Hname.
  destruct (write_file fs (path_join output_dir filename) content)
    as [fs1 err].
  cbn [fst snd].
  destruct (save_items fs1 rest output_dir) as [[fs2 evs] exn].
  reflexivity.
Qed.

(** The write loop over entries whose URLs parse: it ends normally and
    tries every entry, whatever happened to the entries before. *)
Lemma save_items_tries_all output_dir :
  forall items fs,
    (forall url content, In (url, content) items -> urlparse url <> None) ->
    snd (save_items fs items output_dir) = None /\
    write_attempts (snd (fst (save_items fs items output_dir)))
    = map (fun kv => (file_path_of output_dir (fst kv), snd kv)) items.
Proof.
  induction items as [|[url content] rest IH]; intros fs Hkeys.
  - split; reflexivity.
  - assert (Hname : exists f, get_filename_from_url url = Some f).
    { unfold get_filename_from_url.
      destruct (urlparse url) eqn:E; [eauto|].
      exfalso. apply (Hkeys url content); [left; reflexivity | exact E]. }
    destruct Hname as [f Hname].
    rewrite (save_items_cons fs url content rest output_dir f Hname).
    cbn [fst snd write_attempts map].
    destruct (IH (fst (write_file fs (path_join output_dir f) content)))
      as [Hexn Hw].
    { intros u c Hin. apply (Hkeys u c). right. exact Hin. }
    rewrite Hexn, Hw. unfold file_path_of. cbn [fst snd].
    rewrite Hname. split; reflexivity.
Qed.

(** Each entry leaves its own record: saved, or failed with the
    exception of its write. *)
Lemma save_items_logs_each output_dir :
  forall before fs url content after,
    (forall u c, In (u, c) (before ++ (url, content) :: after) ->
                 urlparse u <> None) ->
    let p := file_path_of output_dir url in
    In (Log match snd (write_file (fs_after_items fs before output_dir)
                         p content) with
            | Some e => ErrorSave p e
            | None => InfoSaved p
            end)
       (snd (fst (save_items fs (before ++ (url, content) :: after)
                    output_dir))).
Proof.
  induction before as [|[u0 c0] before IH];
    intros fs url content after Hkeys p.
  - assert (Hname : exists f, get_filename_from_url url = Some f).
    { unfold get_filename_from_url.
      destruct (urlparse url) eqn:E; [eauto|].
      exfalso. apply (Hkeys url content); [left; reflexivity | exact E]. }
    destruct Hname as [f Hname].
    simpl app.
    rewrite (save_items_cons fs url content after output_dir f Hname).
    cbn [fst snd]. right. left.
    unfold p, file_path_of, fs_after_items. rewrite Hname. simpl.
    destruct (snd (write_file fs (path_join output_dir f) content));
      reflexivity.
  - assert (Hname : exists f, get_filename_from_url u0 = Some f).
    { unfold get_filename_from_url.
      destruct (urlparse u0) eqn:E; [eauto|].
      exfalso. apply (Hkeys u0 c0); [left; reflexivity | exact E]. }
    destruct Hname as [f Hname].
    rewrite <- app_comm_cons.
    rewrite (save_items_cons fs u0 c0 _ output_dir f Hname).
    cbn [fst snd]. right. right.
    unfold fs_after_items.
    rewrite (save_items_cons fs u0 c0 before output_dir f Hname).
    cbn [fst].
    apply (IH (fst (write_file fs (path_join output_dir f) c0))).
    intros u c Hin. apply (Hkeys u c). right. exact Hin.
Qed.

(** C9. Persistence over a result set (entries whose URLs parse) never
    raises.  When the directory is missing and cannot be created, that
    is logged and nothing else is done.  Otherwise every entry is
    tried, in order, whether or not earlier writes failed, and each
    entry leaves its own record: saved, or failed with its error. *)
Theorem persistence_errors_are_logged_per_item :
  forall fs data output_dir,
    (forall url content, In (url, content) data -> urlparse url <> None) ->
    snd (save_to_directory fs data output_dir) = None /\
    (forall fs1 e,
       path_exists fs output_dir = false ->
       makedirs fs output_dir = (fs1, Some e) ->
       save_events fs data output_dir = [Log (ErrorCreateDir output_dir e)]) /\
    (forall fs0,
       start_of_writes fs output_dir = Some fs0 ->
       write_attempts (save_events fs data output_dir)
       = map (fun kv => (file_path_of output_dir (fst kv), snd kv)) data /\
       forall before url content after,
         data = before ++ (url, content) :: after ->
         In (Log match snd (write_file (fs_after_items fs0 before output_dir)
                              (file_path_of output_dir url) content) with
                 | Some e => ErrorSave (file_path_of output_dir url) e
                 | None => InfoSaved (file_path_of output_dir url)
                 end)
            (save_events fs data output_dir)).
Proof.
  intros fs data output_dir Hkeys.
  unfold save_events, start_of_writes, save_to_directory.
  destruct (path_exists fs output_dir) eqn:Eex; cbn [negb].
  - destruct (save_items_tries_all output_dir data fs Hkeys) as [Hexn Hw].
    split; [exact Hexn|]. split; [intros; discriminate|].
    intros fs0 E. injection E as <-. split; [exact Hw|].
    intros before url content after ->.
    now apply save_items_logs_each.
  - destruct (makedirs fs output_dir) as [fs1 [e|]] eqn:Emk.
    + split; [reflexivity|]. split; [|intros; discriminate].
      intros fs1' e' _ E. injection E as <- <-. reflexivity.
    + destruct (save_items_tries_all output_dir data fs1 Hkeys)
        as [Hexn Hw].
      pose proof (save_items_logs_each output_dir) as Hlog.
      destruct (save_items fs1 data output_dir) as [[fs2 evs] exn] eqn:Es.
      cbn [fst snd] in *.
      split; [exact Hexn|]. split; [intros; discriminate|].
      intros fs0 E. injection E as <-. split; [exact Hw|].
      intros before url content after ->. right.
      specialize (Hlog before fs1 url content after Hkeys).
      rewrite Es in Hlog. exact Hlog.
Qed.

(** *** The dispatcher hands over entries that can be saved *)

Lemma dict_set_keys d k v k' :
  In k' (map fst (dict_set d k v)) -> k' = k \/ In k' (map fst d).
Proof.
  induction d as [|[k0 v0] d IH]; simpl.
  - intros [H|[]]. left. now symmetry.
  - destruct (String.eqb k0 k) eqn:E; simpl.
    + intros [H|H]; right; [left | right]; assumption.
    + intros [H|H]; [right; left; exact H|].
      destruct (IH H) as [H'|H']; [left | right; right]; assumption.
Qed.

Lemma dict_keys k :
  forall pairs d,
    In k (map fst (fold_left (fun d kv => dict_set d (fst kv) (snd kv))
                     pairs d)) ->
    In k (map fst d) \/ In k (map fst pairs).
Proof.
  induction pairs as [|[k0 v0] pairs IH]; intros d H; simpl in *.
  - left. exact H.
  - destruct (IH _ H) as [H'|H'].
    + destruct (dict_set_keys _ _ _ _ H') as [->|H''];
        [right; left; reflexivity | left; exact H''].
    + right. right. exact H'.
Qed.

Lemma valid_url_parses url : is_valid_url url = true -> urlparse url <> None.
Proof.
  unfold is_valid_url. destruct (urlparse url); [discriminate|].
  intros H. discriminate H.
Qed.

Lemma save_to_directory_returns fs data output_dir :
  (forall url content, In (url, content) data -> urlparse url <> None) ->
  snd (save_to_directory fs data output_dir) = None.
Proof.
  intros Hkeys. unfold save_to_directory.
  destruct (negb (path_exists fs output_dir)).
  - destruct (makedirs fs output_dir) as [fs1 [e|]]; [reflexivity|].
    destruct (save_items_tries_all output_dir data fs1 Hkeys) as [Hexn _].
    destruct (save_items fs1 data output_dir) as [[fs2 evs] exn].
    exact Hexn.
  - apply save_items_tries_all, Hkeys.
Qed.

(** No exception leaves [download_urls]: whatever the network, the
    input and the file system do, the run goes on to its end. *)
Lemma download_urls_returns urls output_dir retries max_connections resume
      fs st :
  snd (download_urls urls output_dir retries max_connections resume fs st)
  = None.
Proof.
  unfold download_urls. cbn zeta.
  pose proof (await_results_keys (mkSession max_connections) retries resume
                (filter is_valid_url urls) st) as Hkeys.
  unfold await_results in Hkeys.
  destruct (await_tasks _ retries resume _ st) as [[results fetched] st'].
  cbn [fst] in Hkeys.
  pose proof (save_to_directory_returns fs (dict results) output_dir) as H.
  destruct (save_to_directory fs (dict results) output_dir)
    as [[fs' saved] exn].
  cbn [snd] in *. apply H. intros url content Hin.
  apply valid_url_parses.
  assert (Hk : In url (map fst (dict results)))
    by (apply (in_map fst) in Hin; exact Hin).
  destruct (dict_keys url results [] Hk) as [[]|Hk'].
  apply Hkeys in Hk'. apply filter_In in Hk'. apply Hk'.
Qed.

(** ** More on the retry loop *)

Lemma fetch_loop_bound session headers :
  forall attempts t url,
    List.length (requests (snd (fst (fetch_loop session headers attempts t url))))
    <= List.length attempts /\
    snd (fetch_loop session headers attempts t url)
    = t + List.length
            (requests (snd (fst (fetch_loop session headers attempts t url)))).
Proof.
  induction attempts as [|a rest IH]; intros t url.
  - simpl. split; lia.
  - pose proof (attempt_body_requests session headers t a url) as Hreq.
    cbn [fetch_loop].
    destruct (attempt_body session headers t a url) as [[c|url'|] evs];
      simpl in Hreq.
    + simpl. rewrite Hreq. simpl. split; lia.
    + specialize (IH (S t) url').
      destruct (fetch_loop session headers rest (S t) url')
        as [[res evs'] t'].
      simpl in *. rewrite requests_app, Hreq. simpl. split; lia.
    + simpl. rewrite Hreq. simpl. split; lia.
Qed.

(** X1. A call of [fetch] never issues more requests than [retries],
    whatever the network answers. *)
Theorem fetch_never_exceeds_retries :
  forall url session retries resume st,
    attempts_made (fetch_events url session retries resume st)
    <= Z.to_nat retries.
Proof.
  intros url session retries resume st.
  unfold attempts_made. rewrite fetch_requests_unfold.
  rewrite <- (range_length retries). apply fetch_loop_bound.
Qed.

(** X2. With [retries <= 0] the loop body never runs: the call issues
    no request, logs nothing and returns [None]. *)
Theorem fetch_without_retries_does_nothing :
  forall url session retries resume st,
    (retries <= 0)%Z ->
    fetch_result url session retries resume st = None /\
    fetch_events url session retries resume st = [FetchCalled url].
Proof.
  intros url session retries resume st Hn.
  unfold fetch_result, fetch_events. rewrite fetch_unfold.
  unfold range. replace (Z.to_nat retries) with 0 by lia.
  split; reflexivity.
Qed.

Lemma handle_exception_control url attempt e :
  fst (handle_exception url attempt e) = Continue url.
Proof. apply handle_exception_continues. Qed.

(** A pass that ends in [return content] was answered 200 and read
    [content]. *)
Lemma attempt_body_return_inv session headers t attempt url content :
  fst (attempt_body session headers t attempt url) = Return content ->
  exists r,
    session_get session t url headers = Responded r /\
    status r = 200%Z /\
    read r = inr content /\
    snd (attempt_body session headers t attempt url)
    = [ Log (DebugAttempting url (attempt + 1)); Request url headers;
        Reply (Responded r); Log (InfoFetched url) ].
Proof.
  unfold attempt_body.
  destruct (session_get session t url headers) as [r|e].
  - unfold on_response.
    destruct (status r =? 200)%Z eqn:E200.
    + destruct (read r) as [e|c] eqn:Er.
      * pose proof (handle_exception_control url attempt e) as H.
        destruct (handle_exception url attempt e) as [ctl evs].
        simpl in *. subst ctl. discriminate.
      * simpl. intros H. injection H as <-.
        exists r. apply Z.eqb_eq in E200. auto.
    + destruct (_ || _).
      * destruct (truthy (location r)); discriminate.
      * discriminate.
  - pose proof (handle_exception_control url attempt e) as H.
    destruct (handle_exception url attempt e) as [ctl evs].
    simpl in *. subst ctl. discriminate.
Qed.

(** A pass that ends in [break] was answered with a status that is
    neither 200 nor a followed redirect, and logged it. *)
Lemma attempt_body_break_inv session headers t attempt url :
  fst (attempt_body session headers t attempt url) = Break ->
  exists r,
    session_get session t url headers = Responded r /\
    status r <> 200%Z /\
    is_redirect (status r) = false /\
    snd (attempt_body session headers t attempt url)
    = [ Log (DebugAttempting url (attempt + 1)); Request url headers;
        Reply (Responded r);
        Log (ErrorStatus url (status r) (reason r)) ].
Proof.
  unfold attempt_body.
  destruct (session_get session t url headers) as [r|e].
  - unfold on_response, is_redirect.
    destruct (status r =? 200)%Z eqn:E200.
    + destruct (read r) as [e|c] eqn:Er.
      * pose proof (handle_exception_control url attempt e) as H.
        destruct (handle_exception url attempt e) as [ctl evs].
        simpl in *. subst ctl. discriminate.
      * discriminate.
    + destruct (_ || _) eqn:Ered.
      * destruct (truthy (location r)); discriminate.
      * simpl. intros _. exists r. apply Z.eqb_neq in E200. auto.
  - pose proof (handle_exception_control url attempt e) as H.
    destruct (handle_exception url attempt e) as [ctl evs].
    simpl in *. subst ctl. discriminate.
Qed.

Lemma fetch_loop_success_inv session headers :
  forall attempts t url content,
    fst (fst (fetch_loop session headers attempts t url)) = Some content ->
    exists before u r,
      snd (fst (fetch_loop session headers attempts t url))
      = before ++ [Request u headers; Reply (Responded r);
                   Log (InfoFetched u)] /\
      status r = 200%Z /\
      read r = inr content.
Proof.
  induction attempts as [|a rest IH]; intros t url content Hres.
  - discriminate.
  - cbn [fetch_loop] in *.
    destruct (attempt_body session headers t a url) as [ctl evs] eqn:Eb.
    destruct ctl as [c|url'|].
    + simpl in Hres. injection Hres as ->.
      destruct (attempt_body_return_inv session headers t a url content)
        as (r & _ & H200 & Hread & Hevs); [now rewrite Eb|].
      rewrite Eb in Hevs. simpl in Hevs. subst evs.
      exists [Log (DebugAttempting url (a + 1))], url, r. simpl. auto.
    + specialize (IH (S t) url' content).
      destruct (fetch_loop session headers rest (S t) url')
        as [[res evs'] t'].
      simpl in *. destruct (IH Hres) as (before & u & r & -> & H200 & Hread).
      exists (evs ++ before), u, r. rewrite <- app_assoc. auto.
    + discriminate.
Qed.

(** X3. [fetch] returns content only from a 200: when it returns
    [Some body], the last thing in its trace is a request answered by a
    200 whose body was read as [body], followed by the record of the
    success. *)
Theorem fetch_success_comes_from_a_200 :
  forall url session retries resume st body,
    fetch_result url session retries resume st = Some body ->
    exists before u r,
      fetch_events url session retries resume st
      = before ++ [Request u (build_headers (draws st) resume);
                   Reply (Responded r); Log (InfoFetched u)] /\
      status r = 200%Z /\
      read r = inr body.
Proof.
  intros url session retries resume st body.
  unfold fetch_result, fetch_events. rewrite fetch_unfold. cbn [fst snd].
  intros H.
  destruct (fetch_loop_success_inv session _ _ _ _ _ H)
    as (before & u & r & -> & H200 & Hread).
  exists (FetchCalled url :: before), u, r. auto.
Qed.

Lemma fetch_loop_failure_inv session headers :
  forall attempts t url,
    fst (fst (fetch_loop session headers attempts t url)) = None ->
    (exists before u r,
       snd (fst (fetch_loop session headers attempts t url))
       = before ++ [Request u headers; Reply (Responded r);
                    Log (ErrorStatus u (status r) (reason r))] /\
       status r <> 200%Z /\
       is_redirect (status r) = false) \/
    List.length (requests (snd (fst (fetch_loop session headers attempts t url))))
    = List.length attempts.
Proof.
  induction attempts as [|a rest IH]; intros t url Hres.
  - right. reflexivity.
  - pose proof (attempt_body_requests session headers t a url) as Hreq.
    cbn [fetch_loop] in *.
    destruct (attempt_body session headers t a url) as [ctl evs] eqn:Eb.
    destruct ctl as [c|url'|].
    + discriminate.
    + specialize (IH (S t) url').
      destruct (fetch_loop session headers rest (S t) url')
        as [[res evs'] t'].
      simpl in *. destruct (IH Hres) as [(before & u & r & -> & H)|Hlen].
      * left. exists (evs ++ before), u, r. rewrite <- app_assoc. auto.
      * right. rewrite requests_app, Hreq. simpl. now rewrite Hlen.
    + left.
      destruct (attempt_body_break_inv session headers t a url)
        as (r & _ & H200 & Hred & Hevs); [now rewrite Eb|].
      rewrite Eb in Hevs. simpl in Hevs. simpl. subst evs.
      exists [Log (DebugAttempting url (a + 1))], url, r. simpl. auto.
Qed.

(** X4. [fetch] gives up for one of two reasons only: when it returns
    [None], either its last request was answered with a status that is
    neither 200 nor 301, 302, 303, which it logged, or it has made all
    its [retries] attempts. *)
Theorem fetch_failure_has_a_cause :
  forall url session retries resume st,
    fetch_result url session retries resume st = None ->
    (exists before u r,
       fetch_events url session retries resume st
       = before ++ [Request u (build_headers (draws st) resume);
                    Reply (Responded r);
                    Log (ErrorStatus u (status r) (reason r))] /\
       status r <> 200%Z /\
       is_redirect (status r) = false) \/
    attempts_made (fetch_events url session retries resume st)
    = Z.to_nat retries.
Proof.
  intros url session retries resume st.
  unfold fetch_result, attempts_made. rewrite fetch_requests_unfold.
  unfold fetch_events. rewrite fetch_unfold. cbn [fst snd].
  intros H.
  destruct (fetch_loop_failure_inv session _ _ _ _ H)
    as [(before & u & r & -> & H')|Hlen].
  - left. exists (FetchCalled url :: before), u, r. auto.
  - right. now rewrite Hlen, range_length.
Qed.

Lemma fetch_loop_break_step session headers a rest t url :
  fst (attempt_body session headers t a url) = Break ->
  fetch_loop session headers (a :: rest) t url
  = (None, snd (attempt_body session headers t a url), S t).
Proof.
  intros H. cbn [fetch_loop].
  destruct (attempt_body session headers t a url) as [ctl evs].
  simpl in H. subst ctl. reflexivity.
Qed.

Lemma fetch_loop_return_full session headers a rest t url content :
  fst (attempt_body session headers t a url) = Return content ->
  fetch_loop session headers (a :: rest) t url
  = (Some content, snd (attempt_body session headers t a url), S t).
Proof.
  intros H. cbn [fetch_loop].
  destruct (attempt_body session headers t a url) as [ctl evs].
  simpl in H. subst ctl. reflexivity.
Qed.

Lemma other_status_breaks session headers t attempt u r :
  network t u headers = Responded r ->
  status r <> 200%Z ->
  is_redirect (status r) = false ->
  fst (attempt_body session headers t attempt (Some u)) = Break /\
  In (Log (ErrorStatus (Some u) (status r) (reason r)))
     (snd (attempt_body session headers t attempt (Some u))).
Proof.
  intros Hnet H200 Hred. unfold attempt_body. simpl session_get.
  rewrite Hnet. unfold on_response. unfold is_redirect in Hred.
  apply Z.eqb_neq in H200. rewrite H200, Hred. simpl. auto 6.
Qed.

(** What the call does from its [k]-th attempt on, when that attempt is
    in the trace. *)
Lemma fetch_reach url session retries resume st k u h :
  nth_error (requests (fetch_events url session retries resume st)) k
  = Some (u, h) ->
  let headers := build_headers (draws st) resume in
  let a := nth k (range retries) 0%Z in
  let run := fetch_loop session headers
               (a :: skipn (S k) (range retries)) (clock st + k) u in
  h = headers /\
  k < Z.to_nat retries /\
  exists before,
    List.length (requests before) = k /\
    fetch_events url session retries resume st = before ++ snd (fst run) /\
    fetch_result url session retries resume st = fst (fst run).
Proof.
  intros Hk headers a run.
  rewrite fetch_requests_unfold in Hk. fold headers in Hk.
  destruct (fetch_loop_reach session headers _ _ _ _ _ _ Hk)
    as (Hh & Hlen & before & Hpre & Hevs & Hres & _).
  rewrite (skipn_cons_nth 0%Z) in Hevs, Hres by exact Hlen.
  rewrite range_length in Hlen.
  split; [exact Hh|]. split; [exact Hlen|].
  exists (FetchCalled url :: before). split; [exact Hpre|].
  unfold fetch_events, fetch_result. rewrite fetch_unfold. cbn [fst snd].
  fold headers. rewrite Hevs, Hres. split; reflexivity.
Qed.

(** X5. Any status other than 200, 301, 302 and 303 ends the call at
    the attempt that received it, at whatever attempt that is and also
    for a 2xx or 3xx status such as 204 or 307: the status is logged, no
    further request is made and the call returns [None]. *)
Theorem fetch_stops_at_any_other_status :
  forall url session retries resume st (k : nat) u h r,
    nth_error (requests (fetch_events url session retries resume st)) k
    = Some (Some u, h) ->
    network (clock st + k) u h = Responded r ->
    status r <> 200%Z ->
    is_redirect (status r) = false ->
    fetch_result url session retries resume st = None /\
    attempts_made (fetch_events url session retries resume st) = S k /\
    In (Log (ErrorStatus (Some u) (status r) (reason r)))
       (fetch_events url session retries resume st).
Proof.
  intros url session retries resume st k u h r Hk Hnet H200 Hred.
  destruct (fetch_reach _ _ _ _ _ _ _ _ Hk)
    as (-> & _ & before & Hpre & Hevs & Hres).
  destruct (other_status_breaks session _ (clock st + k)
              (nth k (range retries) 0%Z) u r Hnet H200 Hred) as [Hctl Hlog].
  rewrite (fetch_loop_break_step _ _ _ _ _ _ Hctl) in Hevs, Hres.
  cbn [fst snd] in Hevs, Hres.
  split; [exact Hres|]. split.
  - unfold attempts_made.
    rewrite Hevs, requests_app, attempt_body_requests, length_app, Hpre.
    simpl. lia.
  - rewrite Hevs. apply in_or_app. right. exact Hlog.
Qed.

(** X6. A 200 whose body is read ends the call at once, at whatever
    attempt it comes: the call returns the body and makes no further
    request. *)
Theorem fetch_returns_at_first_200 :
  forall url session retries resume st (k : nat) u h r body,
    nth_error (requests (fetch_events url session retries resume st)) k
    = Some (Some u, h) ->
    network (clock st + k) u h = Responded r ->
    status r = 200%Z ->
    read r = inr body ->
    fetch_result url session retries resume st = Some body /\
    attempts_made (fetch_events url session retries resume st) = S k.
Proof.
  intros url session retries resume st k u h r body Hk Hnet H200 Hread.
  destruct (fetch_reach _ _ _ _ _ _ _ _ Hk)
    as (-> & _ & before & Hpre & Hevs & Hres).
  pose proof (ok_response_returns session _ (clock st + k)
                (nth k (range retries) 0%Z) u r body Hnet H200 Hread) as Hctl.
  rewrite (fetch_loop_return_full _ _ _ _ _ _ _ Hctl) in Hevs, Hres.
  cbn [fst snd] in Hevs, Hres.
  split; [exact Hres|].
  unfold attempts_made.
  rewrite Hevs, requests_app, attempt_body_requests, length_app, Hpre.
  simpl. lia.
Qed.

(** X7. The resume flag only adds a fixed header: every request of a
    call carries [Range: bytes=0-] when [resume] is set and no [Range]
    header otherwise. *)
Theorem fetch_range_header_follows_resume :
  forall url session retries resume st q,
    In q (requests (fetch_events url session retries resume st)) ->
    headers_get (snd q) "Range"
    = if resume then Some "bytes=0-" else None.
Proof.
  intros url session retries resume st q Hq.
  rewrite fetch_requests_unfold in Hq.
  apply fetch_loop_headers in Hq. rewrite Hq.
  destruct resume; reflexivity.
Qed.

Lemma fetch_loop_first_request session headers a rest t url :
  exists others,
    requests (snd (fst (fetch_loop session headers (a :: rest) t url)))
    = (url, headers) :: others.
Proof.
  pose proof (attempt_body_requests session headers t a url) as Hreq.
  cbn [fetch_loop].
  destruct (attempt_body session headers t a url) as [[c|url'|] evs];
    simpl in Hreq.
  - exists []. simpl. exact Hreq.
  - destruct (fetch_loop session headers rest (S t) url')
      as [[res evs'] t'].
    simpl. rewrite requests_app, Hreq. simpl. eauto.
  - exists []. simpl. exact Hreq.
Qed.

(** The attempt that follows a pass ending in [Continue url'] is made
    on [url']. *)
Lemma fetch_next_request url session retries resume st k u h url' :
  nth_error (requests (fetch_events url session retries resume st)) k
  = Some (u, h) ->
  fst (attempt_body session h (clock st + k) (nth k (range retries) 0%Z) u)
  = Continue url' ->
  S k < Z.to_nat retries ->
  nth_error (requests (fetch_events url session retries resume st)) (S k)
  = Some (url', h).
Proof.
  intros Hk Hctl Hlt.
  destruct (fetch_reach _ _ _ _ _ _ _ _ Hk)
    as (-> & _ & before & Hpre & Hevs & _).
  destruct (fetch_loop_continue_step session _ _
              (skipn (S k) (range retries)) _ _ _ Hctl) as (_ & Hevs1 & _).
  rewrite Hevs1 in Hevs.
  rewrite (skipn_cons_nth 0%Z) in Hevs by (rewrite range_length; exact Hlt).
  destruct (fetch_loop_first_request session
              (build_headers (draws st) resume)
              (nth (S k) (range retries) 0%Z)
              (skipn (S (S k)) (range retries)) (S (clock st + k)) url')
    as [others Hfirst].
  rewrite Hevs, !requests_app, attempt_body_requests, Hfirst.
  rewrite nth_error_app2 by lia. rewrite Hpre.
  replace (S k - k) with 1 by lia. reflexivity.
Qed.

(** X8. A followed redirect replaces the URL for the rest of the call:
    when an attempt is answered 301, 302 or 303 with a [Location] header
    and an attempt is left, the next request goes to the redirect
    target. *)
Theorem fetch_follows_redirect_on_next_attempt :
  forall url session retries resume st (k : nat) u h r loc,
    nth_error (requests (fetch_events url session retries resume st)) k
    = Some (Some u, h) ->
    network (clock st + k) u h = Responded r ->
    is_redirect (status r) = true ->
    location r = Some loc ->
    S k < Z.to_nat retries ->
    nth_error (requests (fetch_events url session retries resume st)) (S k)
    = Some (Some loc, h).
Proof.
  intros url session retries resume st k u h r loc Hk Hnet Hred Hloc Hlt.
  apply fetch_next_request with (u := Some u); [exact Hk | | exact Hlt].
  rewrite <- Hloc. now apply redirect_continues.
Qed.

(** X9. An attempt that ends in an exception, of the network class or
    not, is retried on the same URL when an attempt is left. *)
Theorem fetch_retries_same_url_after_exception :
  forall url session retries resume st (k : nat) u h e,
    nth_error (requests (fetch_events url session retries resume st)) k
    = Some (Some u, h) ->
    network (clock st + k) u h = Raised e ->
    S k < Z.to_nat retries ->
    nth_error (requests (fetch_events url session retries resume st)) (S k)
    = Some (Some u, h).
Proof.
  intros url session retries resume st k u h e Hk Hnet Hlt.
  apply fetch_next_request with (u := Some u); [exact Hk | | exact Hlt].
  rewrite attempt_body_control. simpl session_get. rewrite Hnet.
  apply handle_exception_continues.
Qed.

(** ** More on the dispatcher *)

Lemma skipped_logs_app (a b : list Event) :
  skipped_logs (a ++ b) = skipped_logs a ++ skipped_logs b.
Proof.
  induction a as [|e a IH]; simpl; [reflexivity|].
  destruct e as [[]| | | |]; simpl; rewrite ?IH; reflexivity.
Qed.

Lemma failed_logs_app (a b : list Event) :
  failed_logs (a ++ b) = failed_logs a ++ failed_logs b.
Proof.
  induction a as [|e a IH]; simpl; [reflexivity|].
  destruct e as [[]| | | |]; simpl; rewrite ?IH; reflexivity.
Qed.

Lemma write_attempts_app (a b : list Event) :
  write_attempts (a ++ b) = write_attempts a ++ write_attempts b.
Proof.
  induction a as [|e a IH]; simpl; [reflexivity|].
  destruct e; simpl; rewrite ?IH; reflexivity.
Qed.

(** What the events of each phase cannot be. *)
Lemma skip_phase evs :
  forallb skip_event evs = true ->
  requests evs = [] /\ fetch_calls evs = [] /\
  failed_logs evs = [] /\ write_attempts evs = [].
Proof.
  induction evs as [|e evs IH]; intros H; [auto|].
  simpl in H. apply andb_true_iff in H as [He Hevs].
  destruct e as [[]| | | |]; try discriminate. simpl. auto.
Qed.

Lemma fetch_phase evs :
  forallb fetch_event evs = true ->
  skipped_logs evs = [] /\ write_attempts evs = [].
Proof.
  induction evs as [|e evs IH]; intros H; [auto|].
  simpl in H. apply andb_true_iff in H as [He Hevs].
  destruct e as [[]| | | |]; try discriminate; simpl; auto.
Qed.

Lemma save_phase evs :
  forallb save_event evs = true ->
  requests evs = [] /\ fetch_calls evs = [] /\
  skipped_logs evs = [] /\ failed_logs evs = [].
Proof.
  induction evs as [|e evs IH]; intros H; [auto|].
  simpl in H. apply andb_true_iff in H as [He Hevs].
  destruct e as [[]| | | |]; try discriminate; simpl; auto.
Qed.

Lemma skipped_is_skip_phase (invalid_urls : list string) :
  forallb skip_event
    (map (fun url => Log (WarningInvalidURL url)) invalid_urls) = true /\
  skipped_logs (map (fun url => Log (WarningInvalidURL url)) invalid_urls)
  = invalid_urls.
Proof.
  induction invalid_urls as [|u l [IH1 IH2]]; simpl; [auto|].
  rewrite IH1, IH2. auto.
Qed.

(** The events of one pass of the retry loop are events of [fetch], and
    none is the dispatcher's record of a failed fetch. *)
Lemma attempt_body_is_fetch_phase session headers t attempt url :
  forallb fetch_event (snd (attempt_body session headers t attempt url))
  = true /\
  failed_logs (snd (attempt_body session headers t attempt url)) = [].
Proof.
  unfold attempt_body, on_response, handle_exception.
  destruct (session_get session t url headers) as [r|e].
  - destruct (status r =? 200)%Z.
    + destruct (read r) as [e|c]; [destruct (network_class e)|];
        split; reflexivity.
    + destruct (_ || _); [destruct (truthy (location r))|];
        split; reflexivity.
  - destruct (network_class e); split; reflexivity.
Qed.

Lemma fetch_loop_is_fetch_phase session headers :
  forall attempts t url,
    forallb fetch_event (snd (fst (fetch_loop session headers attempts t url)))
    = true /\
    failed_logs (snd (fst (fetch_loop session headers attempts t url))) = [].
Proof.
  induction attempts as [|a rest IH]; intros t url; [split; reflexivity|].
  destruct (attempt_body_is_fetch_phase session headers t a url) as [Hf Hl].
  cbn [fetch_loop].
  destruct (attempt_body session headers t a url) as [[c|url'|] evs];
    simpl in Hf, Hl; try (split; assumption).
  specialize (IH (S t) url').
  destruct (fetch_loop session headers rest (S t) url') as [[res evs'] t'].
  simpl in *. destruct IH as [Hf' Hl'].
  rewrite forallb_app, failed_logs_app, Hf, Hf', Hl, Hl'. auto.
Qed.

Lemma fetch_is_fetch_phase url session retries resume st :
  forallb fetch_event (fetch_events url session retries resume st) = true /\
  failed_logs (fetch_events url session retries resume st) = [].
Proof.
  unfold fetch_events. rewrite fetch_unfold. cbn [fst snd].
  destruct (fetch_loop_is_fetch_phase session
              (build_headers (draws st) resume) (range retries) (clock st)
              (Some url)) as [Hf Hl].
  simpl. auto.
Qed.

Lemma fetch_attempts_bound url session retries resume st :
  List.length (requests (fetch_events url session retries resume st))
  <= Z.to_nat retries.
Proof.
  rewrite fetch_requests_unfold.
  rewrite <- (range_length retries). apply fetch_loop_bound.
Qed.

(** The loop over the tasks: its events, its requests, and what becomes
    of each URL. *)
Lemma await_is_fetch_phase session retries resume :
  forall valid_urls st,
    forallb fetch_event (await_events session retries resume valid_urls st)
    = true /\
    List.length (requests (await_events session retries resume valid_urls st))
    <= Z.to_nat retries * List.length valid_urls /\
    Permutation
      (map fst (await_results session retries resume valid_urls st)
       ++ failed_logs (await_events session retries resume valid_urls st))
      valid_urls.
Proof.
  induction valid_urls as [|url rest IH]; intros st.
  - split; [reflexivity|]. split; [simpl; lia | apply perm_nil].
  - destruct (await_tasks_cons session retries resume url rest st)
      as (R & E & _).
    destruct (fetch_is_fetch_phase url session retries resume st) as [Hf Hl].
    pose proof (fetch_attempts_bound url session retries resume st) as Hb.
    destruct (IH (fetch_state url session retries resume st))
      as (Hf' & Hb' & Hp').
    rewrite R, E. split; [|split].
    + rewrite !forallb_app, Hf, Hf'.
      destruct (fetch_result url session retries resume st); reflexivity.
    + rewrite !requests_app, !length_app.
      replace (List.length
                 (requests
                    match fetch_result url session retries resume st with
                    | Some _ => []
                    | None => [Log (ErrorFailedFetch url)]
                    end)) with 0
        by (destruct (fetch_result url session retries resume st);
            reflexivity).
      simpl List.length. lia.
    + rewrite !failed_logs_app, Hl.
      destruct (fetch_result url session retries resume st) as [c|]; simpl.
      * apply perm_skip. exact Hp'.
      * apply Permutation_sym, Permutation_cons_app, Permutation_sym.
        exact Hp'.
Qed.

Lemma save_items_is_save_phase :
  forall items fs output_dir,
    forallb save_event (snd (fst (save_items fs items output_dir))) = true.
Proof.
  induction items as [|[url content] rest IH]; intros fs output_dir.
  - reflexivity.
  - cbn [save_items].
    destruct (get_filename_from_url url) as [filename|]; [|reflexivity].
    destruct (write_file fs (path_join output_dir filename) content)
      as [fs1 [e|]];
      specialize (IH fs1 output_dir);
      destruct (save_items fs1 rest output_dir) as [[fs2 evs] exn];
      exact IH.
Qed.

Lemma save_is_save_phase fs data output_dir :
  forallb save_event (snd (fst (save_to_directory fs data output_dir))) = true.
Proof.
  unfold save_to_directory.
  destruct (negb (path_exists fs output_dir)).
  - destruct (makedirs fs output_dir) as [fs1 [e|]]; [reflexivity|].
    pose proof (save_items_is_save_phase data fs1 output_dir) as H.
    destruct (save_items fs1 data output_dir) as [[fs2 evs] exn].
    exact H.
  - apply save_items_is_save_phase.
Qed.

Lemma filter_partition {A} (f : A -> bool) :
  forall l, Permutation (filter f l ++ filter (fun x => negb (f x)) l) l.
Proof.
  induction l as [|x l IH]; simpl; [apply perm_nil|].
  destruct (f x); simpl.
  - apply perm_skip, IH.
  - apply Permutation_sym, Permutation_cons_app, Permutation_sym, IH.
Qed.

(** X10. No exception leaves [download_urls]: whatever the input, the
    network and the file system do, the dispatcher runs to its end. *)
Theorem download_urls_never_raises :
  forall urls output_dir retries max_connections resume fs st,
    snd (download_urls urls output_dir retries max_connections resume fs st)
    = None.
Proof. intros. apply download_urls_returns. Qed.

(** X11. Every entry of the input, counted with its repetitions, is
    either handed to [fetch] or logged as skipped, never both and never
    dropped. *)
Theorem download_accounts_for_every_entry :
  forall urls output_dir retries max_connections resume fs st,
    Permutation
      (fetch_calls (download_events urls output_dir retries max_connections
                      resume fs st)
       ++ skipped_logs (download_events urls output_dir retries
                          max_connections resume fs st))
      urls.
Proof.
  intros urls output_dir retries max_connections resume fs st.
  rewrite download_fetch_calls, download_events_unfold. cbn zeta.
  rewrite !skipped_logs_app.
  destruct (skipped_is_skip_phase
              (filter (fun url => negb (is_valid_url url)) urls)) as [_ ->].
  destruct (await_is_fetch_phase (mkSession max_connections) retries resume
              (filter is_valid_url urls) st) as (Hf & _ & _).
  destruct (fetch_phase _ Hf) as [-> _].
  destruct (save_phase _ (save_is_save_phase fs
              (dict (await_results (mkSession max_connections) retries resume
                       (filter is_valid_url urls) st)) output_dir))
    as (_ & _ & -> & _).
  simpl. rewrite app_nil_r. apply filter_partition.
Qed.

(** X12. A run issues at most [retries] requests for each valid entry
    of the input, and none for the others. *)
Theorem download_request_budget :
  forall urls output_dir retries max_connections resume fs st,
    List.length (requests (download_events urls output_dir retries
                             max_connections resume fs st))
    <= Z.to_nat retries * List.length (filter is_valid_url urls).
Proof.
  intros urls output_dir retries max_connections resume fs st.
  rewrite download_events_unfold. cbn zeta. rewrite !requests_app.
  destruct (skipped_is_skip_phase
              (filter (fun url => negb (is_valid_url url)) urls)) as [Hs _].
  destruct (skip_phase _ Hs) as (-> & _).
  destruct (save_phase _ (save_is_save_phase fs
              (dict (await_results (mkSession max_connections) retries resume
                       (filter is_valid_url urls) st)) output_dir))
    as (-> & _).
  destruct (await_is_fetch_phase (mkSession max_connections) retries resume
              (filter is_valid_url urls) st) as (_ & Hb & _).
  simpl. rewrite app_nil_r. exact Hb.
Qed.

(** X13. A run goes through three phases in order: it first logs every
    skipped entry, then fetches, then saves.  No request or failure
    record comes after the first file event, and no skipped entry is
    logged once fetching has begun. *)
Theorem download_runs_in_three_phases :
  forall urls output_dir retries max_connections resume fs st,
    exists skipped fetched saved,
      download_events urls output_dir retries max_connections resume fs st
      = skipped ++ fetched ++ saved /\
      forallb skip_event skipped = true /\
      forallb fetch_event fetched = true /\
      forallb save_event saved = true.
Proof.
  intros urls output_dir retries max_connections resume fs st.
  rewrite download_events_unfold. cbn zeta.
  do 3 eexists. split; [reflexivity|]. split; [|split].
  - apply skipped_is_skip_phase.
  - apply await_is_fetch_phase.
  - apply save_is_save_phase.
Qed.

(** X14. Every valid entry, counted with its repetitions, ends in
    exactly one of two ways: its content is collected under its URL, or
    its failure is logged. *)
Theorem download_collects_or_reports_each_url :
  forall urls output_dir retries max_connections resume fs st,
    Permutation
      (map fst (collected urls retries max_connections resume st)
       ++ failed_logs (download_events urls output_dir retries
                         max_connections resume fs st))
      (filter is_valid_url urls).
Proof.
  intros urls output_dir retries max_connections resume fs st.
  rewrite download_events_unfold. cbn zeta. rewrite !failed_logs_app.
  destruct (skipped_is_skip_phase
              (filter (fun url => negb (is_valid_url url)) urls)) as [Hs _].
  destruct (skip_phase _ Hs) as (_ & _ & -> & _).
  destruct (save_phase _ (save_is_save_phase fs
              (dict (await_results (mkSession max_connections) retries resume
                       (filter is_valid_url urls) st)) output_dir))
    as (_ & _ & _ & ->).
  simpl. rewrite app_nil_r.
  apply (await_is_fetch_phase (mkSession max_connections) retries resume
           (filter is_valid_url urls) st).
Qed.

(** *** The result set *)

Lemma dict_set_keys_intro d k v k' :
  k' = k \/ In k' (map fst d) -> In k' (map fst (dict_set d k v)).
Proof.
  induction d as [|[k0 v0] d IH]; simpl.
  - intros [->|[]]. left. reflexivity.
  - destruct (String.eqb k0 k) eqn:E; simpl.
    + apply String.eqb_eq in E. subst k0.
      intros [->|[H|H]]; [left | left | right]; auto.
    + intros [H|[H|H]]; [right; apply IH; left; exact H | left; exact H |].
      right. apply IH. right. exact H.
Qed.

Lemma dict_set_NoDup d k v :
  NoDup (map fst d) -> NoDup (map fst (dict_set d k v)).
Proof.
  induction d as [|[k0 v0] d IH]; simpl; intros Hd.
  - constructor; [intros [] | constructor].
  - destruct (String.eqb k0 k) eqn:E; simpl; [exact Hd|].
    inversion Hd as [|x l Hnot Hd']; subst.
    constructor; [|apply IH, Hd'].
    intros Hin. apply dict_set_keys in Hin as [->|Hin].
    + rewrite String.eqb_refl in E. discriminate.
    + exact (Hnot Hin).
Qed.

Lemma dict_fold_NoDup :
  forall pairs d,
    NoDup (map fst d) ->
    NoDup (map fst (fold_left (fun d kv => dict_set d (fst kv) (snd kv))
                      pairs d)).
Proof.
  induction pairs as [|[k v] pairs IH]; intros d Hd; simpl; [exact Hd|].
  apply IH, dict_set_NoDup, Hd.
Qed.

Lemma dict_fold_keys_intro k :
  forall pairs d,
    In k (map fst d) \/ In k (map fst pairs) ->
    In k (map fst (fold_left (fun d kv => dict_set d (fst kv) (snd kv))
                     pairs d)).
Proof.
  induction pairs as [|[k0 v0] pairs IH]; intros d H; simpl in *.
  - destruct H as [H|[]]. exact H.
  - apply IH. destruct H as [H|[H|H]].
    + left. apply dict_set_keys_intro. right. exact H.
    + left. apply dict_set_keys_intro. left. now symmetry.
    + right. exact H.
Qed.

(** The dict built from the collected pairs has one entry for each
    distinct URL that was collected, and no other; for a URL collected
    more than once the entry holds the content collected last. *)
Lemma result_set_keeps_last_content :
  forall urls retries max_connections resume st,
    NoDup (map fst (dict (collected urls retries max_connections resume st)))
    /\
    (forall url,
       In url (map fst (dict (collected urls retries max_connections
                                resume st)))
       <-> In url (map fst (collected urls retries max_connections
                              resume st))) /\
    (forall before url body after,
       collected urls retries max_connections resume st
       = before ++ (url, body) :: after ->
       ~ In url (map fst after) ->
       dict_get (dict (collected urls retries max_connections resume st)) url
       = Some body).
Proof.
  intros urls retries max_connections resume st. split; [|split].
  - apply dict_fold_NoDup. constructor.
  - intros url. split; intros H.
    + destruct (dict_keys url _ [] H) as [[]|H']. exact H'.
    + apply dict_fold_keys_intro. right. exact H.
  - intros before url body after -> Hnot. now apply dict_get_last.
Qed.

(** X16. With no valid entry in the input, a run makes no request and
    writes no file, and still goes through the persistence step: a
    missing output directory is created all the same. *)
Theorem download_without_valid_url_still_creates_directory :
  forall urls output_dir retries max_connections resume fs st,
    filter is_valid_url urls = [] ->
    requests (download_events urls output_dir retries max_connections
                resume fs st) = [] /\
    write_attempts (download_events urls output_dir retries max_connections
                      resume fs st) = [] /\
    skipped_logs (download_events urls output_dir retries max_connections
                    resume fs st) = urls /\
    fst (fst (download_urls urls output_dir retries max_connections resume
                fs st))
    = if path_exists fs output_dir then fs
      else fst (makedirs fs output_dir).
Proof.
  intros urls output_dir retries max_connections resume fs st Hnone.
  assert (Hinv : filter (fun url => negb (is_valid_url url)) urls = urls).
  { clear - Hnone. induction urls as [|u l IH]; [reflexivity|].
    simpl in *. destruct (is_valid_url u); [discriminate|].
    simpl. now rewrite IH. }
  unfold download_events, download_urls. cbn zeta.
  rewrite Hnone, Hinv. cbn [await_tasks dict fold_left].
  unfold save_to_directory.
  destruct (skipped_is_skip_phase urls) as [Hs Hl].
  destruct (skip_phase _ Hs) as (Hr & _ & _ & Hw).
  destruct (path_exists fs output_dir); cbn [negb save_items fst snd].
  - rewrite !app_nil_r. auto.
  - destruct (makedirs fs output_dir) as [fs1 [e|]]; cbn [fst snd];
      rewrite requests_app, write_attempts_app, skipped_logs_app, Hr, Hw, Hl;
      simpl; rewrite app_nil_r; auto.
Qed.

(** ** More on persistence *)

(** X17. The file name taken from a URL is never empty: when the path
    of the URL has an empty base name, the name is [downloaded_file]. *)
Theorem filename_is_never_empty :
  forall url filename,
    get_filename_from_url url = Some filename ->
    str_truthy filename = true /\
    (forall result,
       urlparse url = Some result ->
       path_basename (path result) = "" ->
       filename = "downloaded_file").
Proof.
  intros url filename. unfold get_filename_from_url.
  destruct (urlparse url) as [result|]; [|discriminate].
  intros H. injection H as <-. split.
  - destruct (str_truthy (path_basename (path result))) eqn:E;
      [exact E | reflexivity].
  - intros result' Hr Hb. injection Hr as <-. now rewrite Hb.
Qed.

(** X18. Entries whose URLs give the same file name are written to the
    same path, the later entry after the earlier one: nothing keeps the
    results of two URLs with equal base names apart. *)
Theorem same_filename_is_written_twice :
  forall fs data output_dir fs0 before url1 content1 between url2 content2
         after,
    (forall url content, In (url, content) data -> urlparse url <> None) ->
    start_of_writes fs output_dir = Some fs0 ->
    data = before ++ (url1, content1) :: between ++ (url2, content2) :: after ->
    get_filename_from_url url1 = get_filename_from_url url2 ->
    exists earlier middle later,
      write_attempts (save_events fs data output_dir)
      = earlier ++ (file_path_of output_dir url1, content1)
          :: middle ++ (file_path_of output_dir url1, content2) :: later.
Proof.
  intros fs data output_dir fs0 before url1 content1 between url2 content2
         after Hkeys Hstart -> Hsame.
  assert (Hw : write_attempts (save_events fs
                 (before ++ (url1, content1) :: between
                    ++ (url2, content2) :: after) output_dir)
               = map (fun kv => (file_path_of output_dir (fst kv), snd kv))
                   (before ++ (url1, content1) :: between
                      ++ (url2, content2) :: after)).
  { unfold save_events, save_to_directory.
    unfold start_of_writes in Hstart.
    destruct (path_exists fs output_dir); cbn [negb].
    - apply save_items_tries_all, Hkeys.
    - destruct (makedirs fs output_dir) as [fs1 [e|]]; [discriminate|].
      destruct (save_items_tries_all output_dir _ fs1 Hkeys) as [_ H].
      destruct (save_items fs1 _ output_dir) as [[fs2 evs] exn].
      exact H. }
  rewrite Hw, map_app. cbn [map]. rewrite map_app. cbn [map fst snd].
  replace (file_path_of output_dir url2) with (file_path_of output_dir url1)
    by (unfold file_path_of; now rewrite Hsame).
  eauto.
Qed.

(** ** More on start-up *)

Lemma main_startup argv fs st :
  main argv fs st
  = match startup argv fs with
    | inl ended => ended
    | inr (evs, fs2) =>
        (fst (fst (main_urls argv fs2 st)),
         evs ++ snd (fst (main_urls argv fs2 st)),
         snd (main_urls argv fs2 st))
    end.
Proof.
  unfold main, startup, parse_args, log_file_for.
  destruct (validate_args argv) as [[|] evs0]; [|reflexivity].
  destruct (String.eqb os_name "nt" && negb (path_exists fs _)).
  - destruct (makedirs fs _) as [fs1 [e|]]; [reflexivity|].
    destruct (open_log fs1 _) as [fs2 [e|]]; [reflexivity|].
    destruct (main_urls argv fs2 st) as [[ex evs2] fs3].
    cbn [fst snd]. now rewrite app_assoc.
  - destruct (open_log fs _) as [fs2 [e|]]; [reflexivity|].
    destruct (main_urls argv fs2 st) as [[ex evs2] fs3].
    cbn [fst snd]. now rewrite app_assoc.
Qed.

Lemma silent_nil : silent [].
Proof. repeat split. Qed.

Lemma silent_log r : silent [Log r].
Proof. repeat split. Qed.

Lemma silent_app a b : silent a -> silent b -> silent (a ++ b).
Proof.
  intros (Ha1 & Ha2 & Ha3) (Hb1 & Hb2 & Hb3). unfold silent.
  rewrite requests_app, fetch_calls_app, write_attempts_app,
    Ha1, Ha2, Ha3, Hb1, Hb2, Hb3.
  repeat split.
Qed.

Lemma validate_args_cases argv :
  (validate_args argv = (true, []) /\
   (1 <= arg_retries argv)%Z /\ (1 <= arg_max_connections argv)%Z) \/
  (exists r, validate_args argv = (false, [Log r])).
Proof.
  unfold validate_args.
  destruct (arg_retries argv <? 1)%Z eqn:Er; [right; eauto|].
  destruct (arg_max_connections argv <? 1)%Z eqn:Em; [right; eauto|].
  left. apply Z.ltb_ge in Er, Em. auto.
Qed.

(** How start-up can end. *)
Lemma startup_cases argv fs :
  match startup argv fs with
  | inl (ex, evs, _) =>
      silent evs /\ (ex = SysExit 1 \/ exists e, ex = Uncaught e)
  | inr (evs, _) =>
      silent evs /\
      (1 <= arg_retries argv)%Z /\ (1 <= arg_max_connections argv)%Z
  end.
Proof.
  unfold startup, parse_args.
  destruct (validate_args_cases argv) as [(-> & Hr & Hm)|[r ->]].
  - destruct (String.eqb os_name "nt" && negb (path_exists fs _)).
    + destruct (makedirs fs _) as [fs1 [e|]].
      * split; [apply silent_log | left; reflexivity].
      * destruct (open_log fs1 _) as [fs2 [e|]].
        -- split; [apply silent_log | right; eauto].
        -- split; [apply silent_log | auto].
    + destruct (open_log fs _) as [fs2 [e|]].
      * split; [apply silent_nil | right; eauto].
      * split; [apply silent_nil | auto].
  - split; [apply silent_log | left; reflexivity].
Qed.

Lemma load_config_silent fs c : silent (snd (load_config fs c)).
Proof.
  unfold load_config. destruct (load_yaml fs c) as [e|]; [|apply silent_nil].
  destruct (exn_named _ e); [apply silent_log | apply silent_nil].
Qed.

(** Once the URLs are known: the config file can end the process; if it
    does not, the dispatcher runs and the process finishes normally. *)
Lemma main_download_cases args urls fs st :
  (exists e, fst (fst (main_download args urls fs st)) = Uncaught e /\
             silent (snd (fst (main_download args urls fs st)))) \/
  (exists cfg_evs,
     silent cfg_evs /\
     main_download args urls fs st
     = (Finished,
        cfg_evs ++ download_events urls (arg_dest args) (arg_retries args)
                     (arg_max_connections args) (arg_resume args) fs st,
        fst (fst (download_urls urls (arg_dest args) (arg_retries args)
                    (arg_max_connections args) (arg_resume args) fs st)))).
Proof.
  unfold main_download, download_events.
  pose proof (download_urls_returns urls (arg_dest args) (arg_retries args)
                (arg_max_connections args) (arg_resume args) fs st) as Hret.
  assert (Hrun : forall cfg_evs, silent cfg_evs ->
    exists cfg_evs0,
      silent cfg_evs0 /\
      (let '(fs', evs, exn) :=
         download_urls urls (arg_dest args) (arg_retries args)
           (arg_max_connections args) (arg_resume args) fs st in
       (match exn with Some e => Uncaught e | None => Finished end,
        cfg_evs ++ evs, fs'))
      = (Finished,
         cfg_evs0 ++ snd (fst (download_urls urls (arg_dest args)
                                 (arg_retries args) (arg_max_connections args)
                                 (arg_resume args) fs st)),
         fst (fst (download_urls urls (arg_dest args) (arg_retries args)
                     (arg_max_connections args) (arg_resume args) fs st)))).
  { intros cfg_evs Hs. exists cfg_evs. split; [exact Hs|].
    destruct (download_urls _ _ _ _ _ fs st) as [[fs' evs] exn].
    simpl in Hret. subst exn. reflexivity. }
  destruct (arg_config args) as [c|]; [|right; apply Hrun, silent_nil].
  destruct (str_truthy c); [|right; apply Hrun, silent_nil].
  pose proof (load_config_silent fs c) as Hs.
  destruct (load_config fs c) as [[e|] cfg_evs]; simpl in Hs.
  - left. exists e. simpl. auto.
  - right. apply Hrun, Hs.
Qed.

Lemma main_download_exit args urls fs st :
  (exists e, fst (fst (main_download args urls fs st)) = Uncaught e /\
             silent (snd (fst (main_download args urls fs st)))) \/
  fst (fst (main_download args urls fs st)) = Finished.
Proof.
  destruct (main_download_cases args urls fs st) as [H|(cfg & _ & ->)];
    [left; exact H | right; reflexivity].
Qed.

(** Reading the URLs: the process ends without a trace of fetching, or
    goes on to [main_download]. *)
Lemma main_urls_cases args fs st :
  (silent (snd (fst (main_urls args fs st))) /\
   (fst (fst (main_urls args fs st)) = SysExit 1 \/
    exists e, fst (fst (main_urls args fs st)) = Uncaught e)) \/
  (exists urls, main_urls args fs st = main_download args urls fs st).
Proof.
  unfold main_urls.
  destruct (truthy (arg_file args)).
  - destruct (load_urls fs _) as [e|urls]; [|right; eauto].
    left. destruct (exn_named _ e); simpl.
    + split; [apply silent_log | left; reflexivity].
    + split; [apply silent_nil | right; eauto].
  - destruct (arg_url args) as [[|u us]|].
    + left. split; [apply silent_log | left; reflexivity].
    + right. eauto.
    + left. split; [apply silent_log | left; reflexivity].
Qed.

(** The whole of [main]: it ends early without a trace of fetching,
    with exit status 1 or an uncaught exception, or it finishes. *)
Lemma main_cases argv fs st :
  (silent (main_events argv fs st) /\
   (main_exit argv fs st = SysExit 1 \/
    exists e, main_exit argv fs st = Uncaught e)) \/
  main_exit argv fs st = Finished.
Proof.
  unfold main_events, main_exit. rewrite main_startup.
  pose proof (startup_cases argv fs) as Hs.
  destruct (startup argv fs) as [[[ex evs] fs1]|[evs fs2]].
  - left. exact Hs.
  - destruct Hs as [Hs _]. cbn [fst snd].
    destruct (main_urls_cases argv fs2 st) as [[Hu He]|[urls ->]].
    + left. split; [now apply silent_app | exact He].
    + destruct (main_download_exit argv urls fs2 st) as [(e & He & Hd)|Hf].
      * left. split; [now apply silent_app | right; eauto].
      * right. exact Hf.
Qed.

(** Once [parser.parse_args()] has returned the namespace, every
    [sys.exit] of the program has status 1. *)
Lemma main_exit_status_is_one :
  forall argv fs st code,
    main_exit argv fs st = SysExit code -> code = 1%Z.
Proof.
  intros argv fs st code H.
  destruct (main_cases argv fs st) as [[_ [H1|[e He]]]|Hf]; congruence.
Qed.

(** X20. Once a request has been issued or a file write tried, the
    process finishes normally: no failure of a URL, of a response or of
    a write ends the process with an error. *)
Theorem main_finishes_once_fetching_began :
  forall argv fs st,
    requests (main_events argv fs st) <> [] \/
    write_attempts (main_events argv fs st) <> [] ->
    main_exit argv fs st = Finished.
Proof.
  intros argv fs st H.
  destruct (main_cases argv fs st) as [[(Hr & _ & Hw) _]|Hf]; [|exact Hf].
  destruct H as [H|H]; contradiction.
Qed.

(** X21. Without a URL source (no [--file], no inline URL) the process
    makes no request, calls [fetch] on nothing and writes no file; it
    ends with exit status 1 or with an uncaught exception of start-up. *)
Theorem main_without_url_source_fetches_nothing :
  forall argv fs st,
    truthy (arg_file argv) = false ->
    arg_url argv = None \/ arg_url argv = Some [] ->
    silent (main_events argv fs st) /\
    (main_exit argv fs st = SysExit 1 \/
     exists e, main_exit argv fs st = Uncaught e).
Proof.
  intros argv fs st Hfile Hurl.
  unfold main_events, main_exit. rewrite main_startup.
  pose proof (startup_cases argv fs) as Hs.
  destruct (startup argv fs) as [[[ex evs] fs1]|[evs fs2]]; [exact Hs|].
  destruct Hs as [Hs _]. cbn [fst snd].
  unfold main_urls. rewrite Hfile.
  destruct Hurl as [->| ->]; simpl;
    (split; [apply silent_app; [exact Hs | apply silent_log] | auto]).
Qed.


(** X23. A URL file takes precedence: when [--file] is given, the
    inline URLs have no effect on the run at all. *)
Theorem main_prefers_url_file :
  forall argv fs st inline,
    truthy (arg_file argv) = true ->
    main (with_url argv inline) fs st = main argv fs st.
Proof.
  intros argv fs st inline Hfile.
  rewrite !main_startup.
  assert (Hst : startup (with_url argv inline) fs = startup argv fs).
  { unfold startup, parse_args, validate_args, log_file_for.
    cbn [with_url arg_retries arg_max_connections arg_log].
    destruct (arg_retries argv <? 1)%Z; [reflexivity|].
    destruct (arg_max_connections argv <? 1)%Z; reflexivity. }
  rewrite Hst.
  destruct (startup argv fs) as [ended|[evs fs2]]; [reflexivity|].
  assert (Hu : main_urls (with_url argv inline) fs2 st = main_urls argv fs2 st).
  { unfold main_urls. cbn [with_url arg_file]. rewrite Hfile.
    destruct (load_urls fs2 _); reflexivity. }
  now rewrite Hu.
Qed.

Lemma startup_on_other_platform argv fs :
  String.eqb os_name "nt" = false ->
  (1 <= arg_retries argv)%Z ->
  (1 <= arg_max_connections argv)%Z ->
  startup argv fs
  = match open_log fs (log_file_for argv) with
    | (fs2, Some e) => inl (Uncaught e, [], fs2)
    | (fs2, None) => inr ([], fs2)
    end.
Proof.
  intros Hos Hr Hm. unfold startup, parse_args, validate_args.
  replace (arg_retries argv <? 1)%Z with false
    by (symmetry; apply Z.ltb_ge; lia).
  replace (arg_max_connections argv <? 1)%Z with false
    by (symmetry; apply Z.ltb_ge; lia).
  rewrite Hos. reflexivity.
Qed.

(** X24. On a platform other than Windows the log directory is not
    created; when the log file cannot be opened, the exception of
    [setup_logging] ends the process uncaught, before the URL source is
    looked at and with nothing logged. *)
Theorem main_dies_when_log_file_cannot_be_opened :
  forall argv fs st fs2 e,
    String.eqb os_name "nt" = false ->
    (1 <= arg_retries argv)%Z ->
    (1 <= arg_max_connections argv)%Z ->
    open_log fs (log_file_for argv) = (fs2, Some e) ->
    main argv fs st = (Uncaught e, [], fs2).
Proof.
  intros argv fs st fs2 e Hos Hr Hm Hlog.
  rewrite main_startup, startup_on_other_platform by assumption.
  now rewrite Hlog.
Qed.

(** X25. On Windows, a missing log directory that cannot be created is
    logged and ends the process with exit status 1, before the log file
    is opened. *)
Theorem main_exits_when_log_directory_cannot_be_created :
  forall argv fs st fs1 e,
    String.eqb os_name "nt" = true ->
    (1 <= arg_retries argv)%Z ->
    (1 <= arg_max_connections argv)%Z ->
    path_exists fs (path_dirname (log_file_for argv)) = false ->
    makedirs fs (path_dirname (log_file_for argv)) = (fs1, Some e) ->
    main argv fs st
    = (SysExit 1,
       [Log (ErrorCreateDir (path_dirname (log_file_for argv)) e)], fs1).
Proof.
  intros argv fs st fs1 e Hos Hr Hm Hex Hmk.
  rewrite main_startup. unfold startup, parse_args, validate_args.
  replace (arg_retries argv <? 1)%Z with false
    by (symmetry; apply Z.ltb_ge; lia).
  replace (arg_max_connections argv <? 1)%Z with false
    by (symmetry; apply Z.ltb_ge; lia).
  rewrite Hos, Hex. cbn [negb andb]. now rewrite Hmk.
Qed.

(** X26. The config file has no effect on the run.  When it loads, or
    fails as a missing file or as invalid YAML, the process ends the
    same way, leaves the same file system and the same events as without
    [--config], but for at most one log record of the failure. *)
Theorem main_ignores_config_file :
  forall argv fs st c,
    arg_config argv = Some c ->
    (forall fs' e, load_yaml fs' c = Some e ->
       exn_named ["FileNotFoundError"; "YAMLError"] e = true) ->
    main_exit argv fs st = main_exit (without_config argv) fs st /\
    snd (main argv fs st) = snd (main (without_config argv) fs st) /\
    exists before cfg after,
      main_events argv fs st = before ++ cfg ++ after /\
      main_events (without_config argv) fs st = before ++ after /\
      (cfg = [] \/ cfg = [Log (ErrorConfig c)]).
Proof.
  intros argv fs st c Hc Hyaml.
  unfold main_exit, main_events. rewrite !main_startup.
  assert (Hst : startup (without_config argv) fs = startup argv fs).
  { unfold startup, parse_args, validate_args, log_file_for.
    cbn [without_config arg_retries arg_max_connections arg_log].
    destruct (arg_retries argv <? 1)%Z; [reflexivity|].
    destruct (arg_max_connections argv <? 1)%Z; reflexivity. }
  rewrite Hst.
  destruct (startup argv fs) as [[[ex evs] fs1]|[evs fs2]].
  { split; [reflexivity|]. split; [reflexivity|].
    exists evs, [], []. cbn [fst snd]. rewrite !app_nil_r. auto. }
  cbn [fst snd].
  assert (Hdl : forall urls,
    exists cfg,
      (cfg = [] \/ cfg = [Log (ErrorConfig c)]) /\
      main_download argv urls fs2 st
      = (fst (fst (main_download (without_config argv) urls fs2 st)),
         cfg ++ snd (fst (main_download (without_config argv) urls fs2 st)),
         snd (main_download (without_config argv) urls fs2 st))).
  { intros urls. unfold main_download.
    cbn [without_config arg_config arg_dest arg_retries arg_max_connections
         arg_resume].
    rewrite Hc.
    destruct (download_urls urls (arg_dest argv) (arg_retries argv)
                (arg_max_connections argv) (arg_resume argv) fs2 st)
      as [[fs' dl] exn].
    destruct (str_truthy c); [|exists []; auto].
    unfold load_config.
    destruct (load_yaml fs2 c) as [e|] eqn:Ey; [|exists []; auto].
    rewrite (Hyaml fs2 e Ey). exists [Log (ErrorConfig c)]. auto. }
  unfold main_urls. cbn [without_config arg_file arg_url].
  destruct (truthy (arg_file argv)).
  - destruct (load_urls fs2 _) as [e|urls].
    + split; [reflexivity|]. split; [reflexivity|].
      exists (evs ++ snd (fst (if exn_named
                                    ["FileNotFoundError"; "JSONDecodeError"] e
                               then (SysExit 1, [Log ErrorReadingURLs], fs2)
                               else (Uncaught e, [], fs2)))), [], [].
      rewrite !app_nil_r. auto.
    + destruct (Hdl urls) as (cfg & Hcfg & ->). cbn [fst snd].
      split; [reflexivity|]. split; [reflexivity|].
      exists evs, cfg, (snd (fst (main_download (without_config argv) urls
                                    fs2 st))). auto.
  - destruct (arg_url argv) as [[|u us]|].
    + split; [reflexivity|]. split; [reflexivity|].
      exists (evs ++ [Log ErrorNoURLs]), [], []. rewrite !app_nil_r. auto.
    + destruct (Hdl (u :: us)) as (cfg & Hcfg & ->). cbn [fst snd].
      split; [reflexivity|]. split; [reflexivity|].
      exists evs, cfg, (snd (fst (main_download (without_config argv)
                                    (u :: us) fs2 st))). auto.
    + split; [reflexivity|]. split; [reflexivity|].
      exists (evs ++ [Log ErrorNoURLs]), [], []. rewrite !app_nil_r. auto.
Qed.

(** X27. When start-up succeeds and inline URLs are given, [main] is
    the dispatcher run on those URLs with the destination, retries,
    connection limit and resume flag of the command line, on the file
    system left by [setup_logging]; it finishes normally. *)
Theorem main_runs_dispatcher_on_inline_urls :
  forall argv fs st fs2 u us,
    String.eqb os_name "nt" = false ->
    (1 <= arg_retries argv)%Z ->
    (1 <= arg_max_connections argv)%Z ->
    open_log fs (log_file_for argv) = (fs2, None) ->
    truthy (arg_file argv) = false ->
    arg_url argv = Some (u :: us) ->
    arg_config argv = None ->
    main argv fs st
    = (Finished,
       download_events (u :: us) (arg_dest argv) (arg_retries argv)
         (arg_max_connections argv) (arg_resume argv) fs2 st,
       fst (fst (download_urls (u :: us) (arg_dest argv) (arg_retries argv)
                   (arg_max_connections argv) (arg_resume argv) fs2 st))).
Proof.
  intros argv fs st fs2 u us Hos Hr Hm Hlog Hfile Hurl Hcfg.
  rewrite main_startup, startup_on_other_platform by assumption.
  rewrite Hlog. unfold main_urls. rewrite Hfile, Hurl.
  unfold main_download, download_events. rewrite Hcfg.
  pose proof (download_urls_returns (u :: us) (arg_dest argv)
                (arg_retries argv) (arg_max_connections argv)
                (arg_resume argv) fs2 st) as Hret.
  destruct (download_urls (u :: us) _ _ _ _ fs2 st) as [[fs' evs] exn].
  simpl in Hret. subst exn. reflexivity.
Qed.

(** X28. A 200 whose body cannot be read is not a success: whatever the
    exception of [response.read()], the attempt is used up and the next
    one, when one is left, is made on the same URL. *)
Theorem fetch_retries_after_unreadable_body :
  forall url session retries resume st (k : nat) u h r e,
    nth_error (requests (fetch_events url session retries resume st)) k
    = Some (Some u, h) ->
    network (clock st + k) u h = Responded r ->
    status r = 200%Z ->
    read r = inl e ->
    S k < Z.to_nat retries ->
    nth_error (requests (fetch_events url session retries resume st)) (S k)
    = Some (Some u, h).
Proof.
  intros url session retries resume st k u h r e Hk Hnet H200 Hread Hlt.
  apply fetch_next_request with (u := Some u); [exact Hk | | exact Hlt].
  rewrite attempt_body_control. simpl session_get. rewrite Hnet.
  unfold on_response. rewrite H200, Hread. simpl.
  apply handle_exception_continues.
Qed.

(** ** What is written for what was collected *)

Lemma dict_get_In :
  forall (d : PyDict) k v, dict_get d k = Some v -> In (k, v) d.
Proof.
  induction d as [|[k0 v0] d IH]; intros k v H; simpl in H; [discriminate|].
  destruct (String.eqb k0 k) eqn:E.
  - apply String.eqb_eq in E. injection H as <-. subst k0. left. reflexivity.
  - right. apply IH, H.
Qed.

Lemma collected_keys_parse urls retries max_connections resume st :
  forall url content,
    In (url, content) (dict (collected urls retries max_connections resume st))
    -> urlparse url <> None.
Proof.
  intros url content Hin. apply valid_url_parses.
  assert (Hk : In url (map fst (dict (collected urls retries max_connections
                                        resume st))))
    by (apply (in_map fst) in Hin; exact Hin).
  destruct (dict_keys url _ [] Hk) as [[]|Hk'].
  unfold collected in Hk'. apply await_results_keys in Hk'.
  apply filter_In in Hk'. apply Hk'.
Qed.

(** The file writes of a run are those of the persistence step on the
    dict of the collected pairs: one for each entry, in order, when the
    output directory is there or can be created, and none otherwise. *)
Lemma download_write_attempts urls output_dir retries max_connections resume
      fs st :
  write_attempts (download_events urls output_dir retries max_connections
                    resume fs st)
  = match start_of_writes fs output_dir with
    | Some _ =>
        map (fun kv => (file_path_of output_dir (fst kv), snd kv))
          (dict (collected urls retries max_connections resume st))
    | None => []
    end.
Proof.
  pose proof (collected_keys_parse urls retries max_connections resume st)
    as Hkeys.
  rewrite download_events_unfold. cbn zeta. rewrite !write_attempts_app.
  destruct (skipped_is_skip_phase
              (filter (fun url => negb (is_valid_url url)) urls)) as [Hs _].
  destruct (skip_phase _ Hs) as (_ & _ & _ & ->).
  destruct (await_is_fetch_phase (mkSession max_connections) retries resume
              (filter is_valid_url urls) st) as (Hf & _ & _).
  destruct (fetch_phase _ Hf) as [_ ->].
  cbn [app]. unfold collected in *. unfold await_results.
  unfold start_of_writes, save_to_directory.
  destruct (path_exists fs output_dir); cbn [negb].
  - apply save_items_tries_all, Hkeys.
  - destruct (makedirs fs output_dir) as [fs1 [e|]]; [reflexivity|].
    destruct (save_items_tries_all output_dir _ fs1 Hkeys) as [_ H].
    destruct (save_items fs1 _ output_dir) as [[fs2 evs] exn].
    exact H.
Qed.

(** X15. A run tries exactly one file write for each distinct URL whose
    content was collected, in the order in which the URLs were first
    collected; for a URL that is repeated in the input and collected more
    than once, the content written is the one collected last. *)
Theorem download_writes_each_collected_url_once :
  forall urls output_dir retries max_connections resume fs st fs0,
    start_of_writes fs output_dir = Some fs0 ->
    write_attempts (download_events urls output_dir retries max_connections
                      resume fs st)
    = map (fun kv => (file_path_of output_dir (fst kv), snd kv))
        (dict (collected urls retries max_connections resume st)) /\
    NoDup (map fst (dict (collected urls retries max_connections resume st)))
    /\
    (forall url,
       In url (map fst (dict (collected urls retries max_connections
                                resume st)))
       <-> In url (map fst (collected urls retries max_connections
                              resume st))) /\
    (forall before url body after,
       collected urls retries max_connections resume st
       = before ++ (url, body) :: after ->
       ~ In url (map fst after) ->
       In (file_path_of output_dir url, body)
          (write_attempts (download_events urls output_dir retries
                             max_connections resume fs st))).
Proof.
  intros urls output_dir retries max_connections resume fs st fs0 Hstart.
  pose proof (download_write_attempts urls output_dir retries max_connections
                resume fs st) as Hw.
  rewrite Hstart in Hw.
  destruct (result_set_keeps_last_content urls retries max_connections
              resume st) as (Hnodup & Hkeys & Hlast).
  split; [exact Hw|]. split; [exact Hnodup|]. split; [exact Hkeys|].
  intros before url body after Hsplit Hnot. rewrite Hw.
  apply (in_map (fun kv => (file_path_of output_dir (fst kv), snd kv))
           _ (url, body)).
  apply dict_get_In. now apply (Hlast before url body after).
Qed.

(** ** The exit status of the process *)

(** X19. When the process ends through [sys.exit], the status is 0 only
    after [-h] or [-v], 2 only for a command line that argparse rejects,
    and 1 in every other case: failed validation, log directory, URL
    file, missing URL source. *)
Theorem process_exit_status :
  forall cmd fs st code,
    fst (fst (process cmd fs st)) = SysExit code ->
    (cmd = HelpOrVersion /\ code = 0%Z) \/
    (cmd = UsageError /\ code = 2%Z) \/
    (exists argv, cmd = Parsed argv /\ code = 1%Z).
Proof.
  intros cmd fs st code H. destruct cmd as [argv| |]; simpl in H.
  - right. right. exists argv. split; [reflexivity|].
    destruct (main_cases argv fs st) as [[_ [H1|[e He]]]|Hf];
      unfold main_exit in *; congruence.
  - left. injection H as <-. auto.
  - right. left. injection H as <-. auto.
Qed.

(** ** What a call of [session.get] came back with *)

Lemma replies_app (a b : list Event) :
  replies (a ++ b) = replies a ++ replies b.
Proof.
  induction a as [|e a IH]; simpl; [reflexivity|].
  destruct e; simpl; rewrite ?IH; reflexivity.
Qed.

Lemma local_replies evs : forallb local evs = true -> replies evs = [].
Proof.
  induction evs as [|e evs IH]; intros H; [reflexivity|].
  simpl in H. apply andb_true_iff in H as [He Hevs].
  destruct e; try discriminate; simpl; auto.
Qed.

Lemma attempt_body_replies session headers t attempt url :
  replies (snd (attempt_body session headers t attempt url))
  = [session_get session t url headers].
Proof.
  unfold attempt_body.
  destruct (session_get session t url headers) as [r|e].
  - pose proof (on_response_local url attempt r) as H.
    destruct (on_response url attempt r) as [ctl evs]. simpl in *.
    now rewrite (local_replies _ H).
  - pose proof (handle_exception_local url attempt e) as H.
    destruct (handle_exception url attempt e) as [ctl evs]. simpl in *.
    now rewrite (local_replies _ H).
Qed.

(** The [k]-th reply of a loop is what [session.get] gave for its
    [k]-th request. *)
Lemma fetch_loop_reply session headers :
  forall attempts t url k o,
    nth_error (replies (snd (fst (fetch_loop session headers attempts t url))))
      k = Some o ->
    exists u,
      nth_error
        (requests (snd (fst (fetch_loop session headers attempts t url)))) k
      = Some (u, headers) /\
      o = session_get session (t + k) u headers.
Proof.
  induction attempts as [|a rest IH]; intros t url k o Hk.
  - destruct k; discriminate.
  - pose proof (attempt_body_requests session headers t a url) as Hreq.
    pose proof (attempt_body_replies session headers t a url) as Hrep.
    cbn [fetch_loop] in *.
    destruct (attempt_body session headers t a url) as [[c|url'|] evs];
      simpl in Hreq, Hrep.
    + simpl in *. rewrite Hrep in Hk. rewrite Hreq.
      destruct k as [|k]; [|destruct k; discriminate].
      injection Hk as <-. exists url. rewrite Nat.add_0_r. auto.
    + specialize (IH (S t) url').
      destruct (fetch_loop session headers rest (S t) url')
        as [[res evs'] t'].
      simpl in *. rewrite replies_app, Hrep in Hk.
      rewrite requests_app, Hreq.
      destruct k as [|k].
      * injection Hk as <-. exists url. rewrite Nat.add_0_r. auto.
      * simpl in Hk. destruct (IH k o Hk) as (u & Hu & Ho).
        exists u. simpl. replace (t + S k) with (S (t + k)) by lia. auto.
    + simpl in *. rewrite Hrep in Hk. rewrite Hreq.
      destruct k as [|k]; [|destruct k; discriminate].
      injection Hk as <-. exists url. rewrite Nat.add_0_r. auto.
Qed.

Lemma fetch_reply url session retries resume st k o :
  nth_error (replies (fetch_events url session retries resume st)) k = Some o ->
  exists u,
    nth_error (requests (fetch_events url session retries resume st)) k
    = Some (u, build_headers (draws st) resume) /\
    o = session_get session (clock st + k) u (build_headers (draws st) resume).
Proof.
  rewrite fetch_requests_unfold. unfold fetch_events. rewrite fetch_unfold.
  cbn [fst snd replies]. apply fetch_loop_reply.
Qed.

End Program.

(** ** The program on an aiohttp session

    [network] is now the [get] of an aiohttp session over a [wire]:
    redirects are followed inside the call. *)

Section Client.

Variable wire : nat -> nat -> string -> Headers -> Outcome.
Variable resolve : string -> string -> Exn + string.
Variable rnd : nat -> nat.

Lemma follow_redirects_unfold t left hop url headers :
  follow_redirects wire resolve t left hop url headers
  = match wire t hop url headers with
    | Raised e => Raised e
    | Responded r =>
        if followed_status (status r) then
          match left with
          | 0 => Raised ClientResponseError
          | S left' =>
              match location r with
              | Some loc =>
                  if str_truthy loc then
                    match resolve url loc with
                    | inl e => Raised e
                    | inr target =>
                        follow_redirects wire resolve t left' (S hop) target
                          headers
                    end
                  else Responded r
              | None => Responded r
              end
          end
        else Responded r
    end.
Proof. destruct left; reflexivity. Qed.




(** The client never hands over a redirect that says where to go. *)
Lemma follow_redirects_hands_over t headers :
  forall left hop url r,
    follow_redirects wire resolve t left hop url headers = Responded r ->
    followed_status (status r) = true ->
    truthy (location r) = false.
Proof.
  induction left as [|left IH]; intros hop url r H Hf;
    rewrite follow_redirects_unfold in H;
    destruct (wire t hop url headers) as [r0|e]; try discriminate;
    destruct (followed_status (status r0)) eqn:Hf0;
    try discriminate; try (injection H as <-; congruence).
  destruct (location r0) as [loc|] eqn:Hl.
  - destruct (str_truthy loc) eqn:Ht.
    + destruct (resolve url loc) as [e|target]; [discriminate|].
      eapply IH; eassumption.
    + injection H as <-. rewrite Hl. exact Ht.
  - injection H as <-. now rewrite Hl.
Qed.

Lemma aiohttp_get_hands_over t url headers r :
  aiohttp_get wire resolve t url headers = Responded r ->
  followed_status (status r) = true ->
  truthy (location r) = false.
Proof.
  unfold aiohttp_get. destruct (str_truthy url); [|discriminate].
  apply follow_redirects_hands_over.
Qed.

(** The course of events of the specification never takes place: no
    attempt that comes back with a redirect status and a [Location]
    header is followed by an attempt that comes back with a 200.  Such a
    reply has an empty [Location]; the next attempt is made on the empty
    URL, which the client refuses. *)
Lemma redirect_reply_is_never_followed_by_ok :
  forall url session retries resume st k,
    ~ redirect_on_attempt_then_ok
        (fetch_events (aiohttp_get wire resolve) rnd url session retries
           resume st) k.
Proof.
  intros url session retries resume st k
         (r & loc & r2 & Hk & Hred & Hloc & Hk1 & H200).
  destruct (fetch_reply _ _ _ _ _ _ _ _ _ Hk) as (u & Hreq & Ho).
  destruct (fetch_reply _ _ _ _ _ _ _ _ _ Hk1) as (u1 & Hreq1 & Ho1).
  destruct u as [u|]; [|discriminate].
  simpl in Ho. symmetry in Ho.
  assert (Hf : followed_status (status r) = true).
  { unfold followed_status. rewrite Hred. reflexivity. }
  pose proof (aiohttp_get_hands_over _ _ _ _ Ho Hf) as Hempty.
  rewrite Hloc in Hempty. simpl in Hempty.
  destruct (fetch_reach _ _ _ _ _ _ _ _ _ _ Hreq1) as (_ & Hlt & _).
  pose proof (redirect_continues (aiohttp_get wire resolve) session
                (build_headers rnd (draws st) resume) (clock st + k)
                (nth k (range retries) 0%Z) u r Ho Hred) as Hctl.
  pose proof (fetch_next_request _ _ _ _ _ _ _ _ _ _ _ Hreq Hctl Hlt) as Hnext.
  rewrite Hnext, Hloc in Hreq1. injection Hreq1 as <-.
  destruct loc; [|discriminate]. discriminate.
Qed.


End Client.

Section ClientRun.

Variable wire : nat -> nat -> string -> Headers -> Outcome.
Variable resolve : string -> string -> Exn + string.
Variable rnd : nat -> nat.
Variable urlparse : string -> option ParseResult.
Variable path_join : string -> string -> string.
Variable path_basename : string -> string.
Variable FS : Type.
Variable path_exists : FS -> string -> bool.
Variable makedirs : FS -> string -> FS * option Exn.
Variable write_file : FS -> string -> bytes -> FS * option Exn.


End ClientRun.

(** ** The theorems at work on the sample worlds *)

Lemma fetch_network_errors_use_all_retries_witness :
  fetch_result net_refused rnd_counter "http://a.test/x.bin"
    (mkSession 10) 3 false (mkState 0 0) = None /\
  Z.of_nat (attempts_made
    (fetch_events net_refused rnd_counter "http://a.test/x.bin"
       (mkSession 10) 3 false (mkState 0 0))) = 3%Z /\
  requests (fetch_events net_refused rnd_counter "http://a.test/x.bin"
              (mkSession 10) 3 false (mkState 0 0))
  = repeat (Some "http://a.test/x.bin", build_headers rnd_counter 0 false)
      (Z.to_nat 3).
Proof.
  apply fetch_network_errors_use_all_retries; [lia | intros; reflexivity].
Defined.

Lemma fetch_fatal_status_is_not_retried_witness :
  fetch_result net_not_found rnd_counter "http://a.test/x.bin"
    (mkSession 10) 3 false (mkState 0 0) = None /\
  attempts_made (fetch_events net_not_found rnd_counter "http://a.test/x.bin"
                   (mkSession 10) 3 false (mkState 0 0)) = 1 /\
  In (Log (ErrorStatus (Some "http://a.test/x.bin") 404 "Not Found"))
     (fetch_events net_not_found rnd_counter "http://a.test/x.bin"
        (mkSession 10) 3 false (mkState 0 0)).
Proof.
  apply (fetch_fatal_status_is_not_retried net_not_found rnd_counter
           "http://a.test/x.bin" (mkSession 10) 3 false (mkState 0 0)
           (mkResponse 404 "Not Found" None (inr [])));
    [lia | reflexivity | simpl; lia].
Defined.

Lemma fetch_redirect_without_location_runs_out_witness :
  fetch_result net_no_location rnd_counter "http://a.test/x.bin"
    (mkSession 10) 3 false (mkState 0 0) = None /\
  attempts_made (fetch_events net_no_location rnd_counter "http://a.test/x.bin"
                   (mkSession 10) 3 false (mkState 0 0)) = Z.to_nat 3 /\
  (forall j, 0 < j < Z.to_nat 3 ->
     nth_error (requests (fetch_events net_no_location rnd_counter
                            "http://a.test/x.bin" (mkSession 10) 3 false
                            (mkState 0 0))) j
     = Some (None, build_headers rnd_counter 0 false) /\
     In (Log (ErrorUnexpected None (Z.of_nat j + 1)
                (OtherException "TypeError")))
        (fetch_events net_no_location rnd_counter "http://a.test/x.bin"
           (mkSession 10) 3 false (mkState 0 0))).
Proof.
  apply (fetch_redirect_without_location_runs_out net_no_location rnd_counter
           "http://a.test/x.bin" (mkSession 10) 3 false (mkState 0 0) 0
           "http://a.test/x.bin" (build_headers rnd_counter 0 false)
           (mkResponse 303 "See Other" None (inr [])));
    reflexivity.
Defined.

Lemma invalid_urls_are_never_fetched_witness :
  ~ In "not a url"
      (fetch_calls
         (download_events net_echo rnd_counter sample_urlparse sample_join
            sample_basename SampleFS sample_exists sample_makedirs sample_write
            example_urls "out" 3 2 false fs_denied_x (mkState 0 0))) /\
  (In "not a url" example_urls ->
   In (Log (WarningInvalidURL "not a url"))
      (download_events net_echo rnd_counter sample_urlparse sample_join
         sample_basename SampleFS sample_exists sample_makedirs sample_write
         example_urls "out" 3 2 false fs_denied_x (mkState 0 0))) /\
  fetch_calls
    (download_events net_echo rnd_counter sample_urlparse sample_join
       sample_basename SampleFS sample_exists sample_makedirs sample_write
       example_urls "out" 3 2 false fs_denied_x (mkState 0 0))
  = filter (is_valid_url sample_urlparse) example_urls.
Proof.
  apply invalid_urls_are_never_fetched.
  intros result H. vm_compute in H. injection H as <-. left. reflexivity.
Defined.

Lemma at_most_max_connections_in_flight_witness :
  (in_flight
     (firstn 3
        (download_events net_echo rnd_counter sample_urlparse sample_join
           sample_basename SampleFS sample_exists sample_makedirs sample_write
           example_urls "out" 3 2 false fs_denied_x (mkState 0 0)))
   <= 2)%Z /\
  (0 <= in_flight
          (firstn 3
             (download_events net_echo rnd_counter sample_urlparse sample_join
                sample_basename SampleFS sample_exists sample_makedirs
                sample_write example_urls "out" 3 2 false fs_denied_x
                (mkState 0 0)))
   <= 1)%Z.
Proof.
  apply at_most_max_connections_in_flight. lia.
Defined.

Lemma invalid_configuration_exits_before_any_request_witness :
  main_exit net_echo rnd_counter sample_urlparse sample_join sample_basename
    sample_dirname SampleFS sample_exists sample_makedirs sample_write
    "posix" "/root" (fun fs _ => (fs, None)) (fun _ _ => inr [])
    (fun _ _ => None) argv_no_retries fs_denied_x (mkState 0 0)
  = SysExit 1 /\
  (main_events net_echo rnd_counter sample_urlparse sample_join sample_basename
     sample_dirname SampleFS sample_exists sample_makedirs sample_write
     "posix" "/root" (fun fs _ => (fs, None)) (fun _ _ => inr [])
     (fun _ _ => None) argv_no_retries fs_denied_x (mkState 0 0)
   = [Log ErrorRetries] \/
   main_events net_echo rnd_counter sample_urlparse sample_join sample_basename
     sample_dirname SampleFS sample_exists sample_makedirs sample_write
     "posix" "/root" (fun fs _ => (fs, None)) (fun _ _ => inr [])
     (fun _ _ => None) argv_no_retries fs_denied_x (mkState 0 0)
   = [Log ErrorMaxConnections]) /\
  requests
    (main_events net_echo rnd_counter sample_urlparse sample_join
       sample_basename sample_dirname SampleFS sample_exists sample_makedirs
       sample_write "posix" "/root" (fun fs _ => (fs, None))
       (fun _ _ => inr []) (fun _ _ => None) argv_no_retries fs_denied_x
       (mkState 0 0)) = [] /\
  fetch_calls
    (main_events net_echo rnd_counter sample_urlparse sample_join
       sample_basename sample_dirname SampleFS sample_exists sample_makedirs
       sample_write "posix" "/root" (fun fs _ => (fs, None))
       (fun _ _ => inr []) (fun _ _ => None) argv_no_retries fs_denied_x
       (mkState 0 0)) = [] /\
  snd (main net_echo rnd_counter sample_urlparse sample_join sample_basename
         sample_dirname SampleFS sample_exists sample_makedirs sample_write
         "posix" "/root" (fun fs _ => (fs, None)) (fun _ _ => inr [])
         (fun _ _ => None) argv_no_retries fs_denied_x (mkState 0 0))
  = fs_denied_x.
Proof.
  apply invalid_configuration_exits_before_any_request.
  left. simpl. lia.
Defined.

Lemma persistence_errors_are_logged_per_item_witness :
  snd (save_to_directory sample_urlparse sample_join sample_basename SampleFS
         sample_exists sample_makedirs sample_write
         fs_denied_x example_data "out") = None /\
  write_attempts
    (save_events sample_urlparse sample_join sample_basename SampleFS
       sample_exists sample_makedirs sample_write
       fs_denied_x example_data "out")
  = [("out/x.bin", body_of "x"); ("out/y.bin", body_of "y")] /\
  In (Log (ErrorSave "out/x.bin" (OtherException "PermissionError")))
     (save_events sample_urlparse sample_join sample_basename SampleFS
        sample_exists sample_makedirs sample_write
        fs_denied_x example_data "out") /\
  In (Log (InfoSaved "out/y.bin"))
     (save_events sample_urlparse sample_join sample_basename SampleFS
        sample_exists sample_makedirs sample_write
        fs_denied_x example_data "out").
Proof.
  assert (Hkeys : forall url content,
            In (url, content) example_data -> sample_urlparse url <> None).
  { intros url content [H|[H|[]]]; injection H as <- _; discriminate. }
  destruct (persistence_errors_are_logged_per_item sample_urlparse sample_join
              sample_basename SampleFS sample_exists sample_makedirs
              sample_write fs_denied_x example_data "out" Hkeys)
    as (Hexn & _ & Hall).
  destruct (Hall fs_denied_x eq_refl) as [Hw Hlog].
  split; [exact Hexn|]. split; [exact Hw|]. split.
  - exact (Hlog [] "http://a.test/x.bin" (body_of "x")
             [("http://a.test/y.bin", body_of "y")] eq_refl).
  - exact (Hlog [("http://a.test/x.bin", body_of "x")]
             "http://a.test/y.bin" (body_of "y") [] eq_refl).
Defined.

(** C7, as the specification words it, fails.  With a generator whose
    draws all differ and two attempts in one call, both requests carry
    the first entry of the pool: the second attempt does not carry the
    value a fresh draw would have chosen, and the call has taken a
    single draw. *)
Lemma user_agent_is_not_rotated_per_attempt :
  map (fun q => headers_get (snd q) "User-Agent")
    (requests (fetch_events net_refused rnd_counter "http://a.test/x.bin"
                 (mkSession 10) 2 false (mkState 0 0)))
  = [Some (nth 0 USER_AGENTS ""); Some (nth 0 USER_AGENTS "")] /\
  random_choice rnd_counter 1 USER_AGENTS = nth 1 USER_AGENTS "" /\
  draws (fetch_state net_refused rnd_counter "http://a.test/x.bin"
           (mkSession 10) 2 false (mkState 0 0)) = 1 /\
  ~ rotated_per_attempt rnd_counter 0
      (fetch_events net_refused rnd_counter "http://a.test/x.bin"
         (mkSession 10) 2 false (mkState 0 0)).
Proof.
  split; [reflexivity|]. split; [reflexivity|]. split; [reflexivity|].
  intros H. specialize (H 1 _ eq_refl). vm_compute in H. discriminate H.
Qed.

(** ** The example run of the specification

    Three entries, the middle one not a URL, three retries, two
    connections, every request answered with 200. *)

Example example_run_requests :
  requests
    (download_events net_echo rnd_counter sample_urlparse sample_join
       sample_basename SampleFS sample_exists sample_makedirs sample_write
       example_urls "out" 3 2 false fs_open (mkState 0 0))
  = [(Some "http://a.test/x.bin", build_headers rnd_counter 0 false);
     (Some "http://a.test/y.bin", build_headers rnd_counter 1 false)].
Proof. reflexivity. Qed.

Example example_run_files :
  files (fst (fst (download_urls net_echo rnd_counter sample_urlparse
                     sample_join sample_basename SampleFS sample_exists
                     sample_makedirs sample_write
                     example_urls "out" 3 2 false fs_open (mkState 0 0))))
  = [("out/x.bin", body_of "http://a.test/x.bin");
     ("out/y.bin", body_of "http://a.test/y.bin")].
Proof. reflexivity. Qed.

Example example_run_one_file_denied :
  files (fst (fst (download_urls net_echo rnd_counter sample_urlparse
                     sample_join sample_basename SampleFS sample_exists
                     sample_makedirs sample_write
                     example_urls "out" 3 2 false fs_denied_x (mkState 0 0))))
  = [("out/y.bin", body_of "http://a.test/y.bin")].
Proof. reflexivity. Qed.


(** ** The further properties at work on the sample worlds *)

Lemma fetch_without_retries_does_nothing_witness :
  fetch_result net_echo rnd_counter "http://a.test/x.bin" (mkSession 2)
    0 false (mkState 0 0) = None /\
  fetch_events net_echo rnd_counter "http://a.test/x.bin" (mkSession 2)
    0 false (mkState 0 0) = [FetchCalled "http://a.test/x.bin"].
Proof.
  apply fetch_without_retries_does_nothing. lia.
Defined.

Lemma fetch_success_comes_from_a_200_witness :
  exists before u r,
    fetch_events net_reset_once rnd_counter "http://a.test/x.bin"
      (mkSession 2) 3 false (mkState 0 0)
    = before ++ [Request u (build_headers rnd_counter 0 false);
                 Reply (Responded r); Log (InfoFetched u)] /\
    status r = 200%Z /\
    read r = inr (body_of "payload").
Proof.
  apply (fetch_success_comes_from_a_200 net_reset_once rnd_counter
           "http://a.test/x.bin" (mkSession 2) 3 false (mkState 0 0)).
  reflexivity.
Defined.

Lemma fetch_failure_has_a_cause_witness :
  (exists before u r,
     fetch_events net_not_found rnd_counter "http://a.test/x.bin"
       (mkSession 2) 3 false (mkState 0 0)
     = before ++ [Request u (build_headers rnd_counter 0 false);
                  Reply (Responded r);
                  Log (ErrorStatus u (status r) (reason r))] /\
     status r <> 200%Z /\
     is_redirect (status r) = false) \/
  attempts_made (fetch_events net_not_found rnd_counter "http://a.test/x.bin"
                   (mkSession 2) 3 false (mkState 0 0)) = Z.to_nat 3.
Proof.
  apply fetch_failure_has_a_cause. reflexivity.
Defined.

Lemma fetch_stops_at_any_other_status_witness :
  fetch_result net_temporary rnd_counter "http://a.test/x.bin" (mkSession 2)
    3 false (mkState 0 0) = None /\
  attempts_made (fetch_events net_temporary rnd_counter "http://a.test/x.bin"
                   (mkSession 2) 3 false (mkState 0 0)) = 1 /\
  In (Log (ErrorStatus (Some "http://a.test/x.bin") 307 "Temporary Redirect"))
     (fetch_events net_temporary rnd_counter "http://a.test/x.bin"
        (mkSession 2) 3 false (mkState 0 0)).
Proof.
  apply (fetch_stops_at_any_other_status net_temporary rnd_counter
           "http://a.test/x.bin" (mkSession 2) 3 false (mkState 0 0) 0
           "http://a.test/x.bin" (build_headers rnd_counter 0 false)
           (mkResponse 307 "Temporary Redirect" None (inr [])));
    solve [reflexivity | discriminate].
Defined.

Lemma fetch_returns_at_first_200_witness :
  fetch_result net_reset_once rnd_counter "http://a.test/x.bin"
    (mkSession 2) 5 false (mkState 0 0) = Some (body_of "payload") /\
  attempts_made (fetch_events net_reset_once rnd_counter
                   "http://a.test/x.bin" (mkSession 2) 5 false (mkState 0 0))
  = 2.
Proof.
  apply (fetch_returns_at_first_200 net_reset_once rnd_counter
           "http://a.test/x.bin" (mkSession 2) 5 false (mkState 0 0) 1
           "http://a.test/x.bin" (build_headers rnd_counter 0 false)
           (mkResponse 200 "OK" None (inr (body_of "payload"))));
    reflexivity.
Defined.

Lemma fetch_follows_redirect_on_next_attempt_witness :
  nth_error (requests (fetch_events net_empty_location rnd_counter
                         "http://a.test/x.bin" (mkSession 2) 3 false
                         (mkState 0 0))) 1
  = Some (Some "", build_headers rnd_counter 0 false).
Proof.
  apply (fetch_follows_redirect_on_next_attempt net_empty_location rnd_counter
           "http://a.test/x.bin" (mkSession 2) 3 false (mkState 0 0) 0
           "http://a.test/x.bin" (build_headers rnd_counter 0 false)
           (mkResponse 302 "Found" (Some "") (inr [])) "");
    solve [reflexivity | simpl; lia].
Defined.

Lemma fetch_retries_same_url_after_exception_witness :
  nth_error (requests (fetch_events net_refused rnd_counter
                         "http://a.test/x.bin" (mkSession 2) 3 false
                         (mkState 0 0))) 1
  = Some (Some "http://a.test/x.bin", build_headers rnd_counter 0 false).
Proof.
  apply (fetch_retries_same_url_after_exception net_refused rnd_counter
           "http://a.test/x.bin" (mkSession 2) 3 false (mkState 0 0) 0
           "http://a.test/x.bin" (build_headers rnd_counter 0 false)
           ClientConnectorError);
    solve [reflexivity | simpl; lia].
Defined.

Lemma download_without_valid_url_still_creates_directory_witness :
  let run :=
    download_urls net_echo rnd_counter sample_urlparse sample_join
      sample_basename SampleFS sample_exists sample_makedirs sample_write
      ["not a url"; "x.bin"] "new" 3 2 false fs_open (mkState 0 0) in
  requests (snd (fst run)) = [] /\
  write_attempts (snd (fst run)) = [] /\
  skipped_logs (snd (fst run)) = ["not a url"; "x.bin"] /\
  fst (fst run) = mkFS ["new"; "out"] [] [].
Proof.
  apply (download_without_valid_url_still_creates_directory net_echo
           rnd_counter sample_urlparse sample_join sample_basename SampleFS
           sample_exists sample_makedirs sample_write
           ["not a url"; "x.bin"] "new" 3 2 false fs_open (mkState 0 0)).
  reflexivity.
Defined.

Lemma filename_is_never_empty_witness :
  str_truthy "downloaded_file" = true /\
  (forall result,
     sample_urlparse "http://a.test/" = Some result ->
     sample_basename (path result) = "" ->
     "downloaded_file" = "downloaded_file").
Proof.
  apply (filename_is_never_empty sample_urlparse sample_basename
           "http://a.test/" "downloaded_file").
  reflexivity.
Defined.

Lemma same_filename_is_written_twice_witness :
  exists earlier middle later,
    write_attempts
      (save_events sample_urlparse sample_join sample_basename SampleFS
         sample_exists sample_makedirs sample_write
         fs_open example_same_name "out")
    = earlier ++ (file_path_of sample_urlparse sample_join sample_basename
                    "out" "http://a.test/x.bin", body_of "a")
        :: middle ++ (file_path_of sample_urlparse sample_join sample_basename
                        "out" "http://a.test/x.bin", body_of "b") :: later.
Proof.
  apply (same_filename_is_written_twice sample_urlparse sample_join
           sample_basename SampleFS sample_exists sample_makedirs sample_write
           fs_open example_same_name "out" fs_open
           [] "http://a.test/x.bin" (body_of "a")
           [] "http://b.test/x.bin" (body_of "b") []);
    try reflexivity.
  intros url content [H|[H|[]]]; injection H as <- _; discriminate.
Defined.

Lemma process_exit_status_witness :
  (Parsed argv_file = HelpOrVersion /\ 1%Z = 0%Z) \/
  (Parsed argv_file = UsageError /\ 1%Z = 2%Z) \/
  (exists argv, Parsed argv_file = Parsed argv /\ 1%Z = 1%Z).
Proof.
  apply (process_exit_status net_echo rnd_counter sample_urlparse
           sample_join sample_basename sample_dirname SampleFS sample_exists
           sample_makedirs sample_write "posix" "/root" sample_open_log
           sample_load_urls sample_load_yaml (Parsed argv_file) fs_open
           (mkState 0 0) 1%Z).
  reflexivity.
Defined.

Lemma main_finishes_once_fetching_began_witness :
  main_exit net_not_found rnd_counter sample_urlparse sample_join
    sample_basename sample_dirname SampleFS sample_exists sample_makedirs
    sample_write "posix" "/root" sample_open_log sample_load_urls
    sample_load_yaml argv_inline fs_denied_x (mkState 0 0) = Finished.
Proof.
  apply main_finishes_once_fetching_began.
  left. vm_compute. discriminate.
Defined.

Lemma main_without_url_source_fetches_nothing_witness :
  silent
    (main_events net_echo rnd_counter sample_urlparse sample_join
       sample_basename sample_dirname SampleFS sample_exists sample_makedirs
       sample_write "posix" "/root" sample_open_log sample_load_urls
       sample_load_yaml argv_no_source fs_open (mkState 0 0)) /\
  (main_exit net_echo rnd_counter sample_urlparse sample_join sample_basename
     sample_dirname SampleFS sample_exists sample_makedirs sample_write
     "posix" "/root" sample_open_log sample_load_urls sample_load_yaml
     argv_no_source fs_open (mkState 0 0) = SysExit 1 \/
   exists e,
     main_exit net_echo rnd_counter sample_urlparse sample_join sample_basename
       sample_dirname SampleFS sample_exists sample_makedirs sample_write
       "posix" "/root" sample_open_log sample_load_urls sample_load_yaml
       argv_no_source fs_open (mkState 0 0) = Uncaught e).
Proof.
  apply main_without_url_source_fetches_nothing;
    [reflexivity | left; reflexivity].
Defined.


Lemma main_prefers_url_file_witness :
  main net_echo rnd_counter sample_urlparse sample_join sample_basename
    sample_dirname SampleFS sample_exists sample_makedirs sample_write
    "posix" "/root" sample_open_log sample_load_urls sample_load_yaml
    (with_url argv_file None) fs_open (mkState 0 0)
  = main net_echo rnd_counter sample_urlparse sample_join sample_basename
      sample_dirname SampleFS sample_exists sample_makedirs sample_write
      "posix" "/root" sample_open_log sample_load_urls sample_load_yaml
      argv_file fs_open (mkState 0 0).
Proof.
  apply main_prefers_url_file. reflexivity.
Defined.

Lemma main_dies_when_log_file_cannot_be_opened_witness :
  main net_echo rnd_counter sample_urlparse sample_join sample_basename
    sample_dirname SampleFS sample_exists sample_makedirs sample_write
    "posix" "/root" sample_open_log sample_load_urls sample_load_yaml
    argv_inline fs_log_denied (mkState 0 0)
  = (Uncaught (OtherException "PermissionError"), [], fs_log_denied).
Proof.
  apply main_dies_when_log_file_cannot_be_opened;
    solve [reflexivity | simpl; lia].
Defined.

Lemma main_exits_when_log_directory_cannot_be_created_witness :
  main net_echo rnd_counter sample_urlparse sample_join sample_basename
    sample_dirname SampleFS sample_exists sample_makedirs sample_write
    "nt" "C:/Users/u" sample_open_log sample_load_urls sample_load_yaml
    argv_inline fs_home_denied (mkState 0 0)
  = (SysExit 1,
     [Log (ErrorCreateDir "C:/Users/u/.kalpak"
             (OtherException "PermissionError"))],
     fs_home_denied).
Proof.
  apply (main_exits_when_log_directory_cannot_be_created net_echo rnd_counter
           sample_urlparse sample_join sample_basename sample_dirname SampleFS
           sample_exists sample_makedirs sample_write "nt" "C:/Users/u"
           sample_open_log sample_load_urls sample_load_yaml
           argv_inline fs_home_denied (mkState 0 0) fs_home_denied
           (OtherException "PermissionError"));
    solve [reflexivity | simpl; lia].
Defined.

Lemma main_ignores_config_file_witness :
  let with_config :=
    main net_echo rnd_counter sample_urlparse sample_join sample_basename
      sample_dirname SampleFS sample_exists sample_makedirs sample_write
      "posix" "/root" sample_open_log sample_load_urls
      (fun _ _ => Some (OtherException "ParserError"))
      argv_config fs_open (mkState 0 0) in
  let without :=
    main net_echo rnd_counter sample_urlparse sample_join sample_basename
      sample_dirname SampleFS sample_exists sample_makedirs sample_write
      "posix" "/root" sample_open_log sample_load_urls
      (fun _ _ => Some (OtherException "ParserError"))
      (without_config argv_config) fs_open (mkState 0 0) in
  fst (fst with_config) = fst (fst without) /\
  snd with_config = snd without /\
  exists before cfg after,
    snd (fst with_config) = before ++ cfg ++ after /\
    snd (fst without) = before ++ after /\
    (cfg = [] \/ cfg = [Log (ErrorConfig "kalpak.yaml")]).
Proof.
  apply (main_ignores_config_file net_echo rnd_counter sample_urlparse
           sample_join sample_basename sample_dirname SampleFS sample_exists
           sample_makedirs sample_write "posix" "/root" sample_open_log
           sample_load_urls (fun _ _ => Some (OtherException "ParserError"))
           argv_config fs_open (mkState 0 0) "kalpak.yaml"); [reflexivity|].
  intros fs' e H. injection H as <-. reflexivity.
Defined.

Lemma main_runs_dispatcher_on_inline_urls_witness :
  main net_echo rnd_counter sample_urlparse sample_join sample_basename
    sample_dirname SampleFS sample_exists sample_makedirs sample_write
    "posix" "/root" sample_open_log sample_load_urls sample_load_yaml
    argv_inline fs_open (mkState 0 0)
  = (Finished,
     download_events net_echo rnd_counter sample_urlparse sample_join
       sample_basename SampleFS sample_exists sample_makedirs sample_write
       ["http://a.test/x.bin"] "out" 3 2 false fs_open (mkState 0 0),
     fst (fst (download_urls net_echo rnd_counter sample_urlparse sample_join
                 sample_basename SampleFS sample_exists sample_makedirs
                 sample_write ["http://a.test/x.bin"] "out" 3 2 false fs_open
                 (mkState 0 0)))).
Proof.
  apply (main_runs_dispatcher_on_inline_urls net_echo rnd_counter
           sample_urlparse sample_join sample_basename sample_dirname SampleFS
           sample_exists sample_makedirs sample_write "posix" "/root"
           sample_open_log sample_load_urls sample_load_yaml
           argv_inline fs_open (mkState 0 0) fs_open);
    solve [reflexivity | simpl; lia].
Defined.

Lemma fetch_retries_after_unreadable_body_witness :
  nth_error (requests (fetch_events net_truncated rnd_counter
                         "http://a.test/x.bin" (mkSession 2) 3 false
                         (mkState 0 0))) 1
  = Some (Some "http://a.test/x.bin", build_headers rnd_counter 0 false).
Proof.
  apply (fetch_retries_after_unreadable_body net_truncated rnd_counter
           "http://a.test/x.bin" (mkSession 2) 3 false (mkState 0 0) 0
           "http://a.test/x.bin" (build_headers rnd_counter 0 false)
           (mkResponse 200 "OK" None (inl ClientError)) ClientError);
    solve [reflexivity | simpl; lia].
Defined.

Lemma fetch_range_header_follows_resume_witness :
  headers_get
    (snd (Some "http://a.test/x.bin", build_headers rnd_counter 0 true))
    "Range"
  = Some "bytes=0-".
Proof.
  apply (fetch_range_header_follows_resume net_refused rnd_counter
           "http://a.test/x.bin" (mkSession 2) 3 true (mkState 0 0)
           (Some "http://a.test/x.bin", build_headers rnd_counter 0 true)).
  right. left. reflexivity.
Defined.

(** ** Redirects on the sample wires *)





(** The redirect example on the real client: the redirect is followed
    inside the first attempt. *)
Example example_redirect_is_followed :
  fetch (aiohttp_get wire_redirect_then_ok resolve_absolute) rnd_counter
    "http://a.test/x.bin" (mkSession 2) 1 false (mkState 0 0)
  = (Some (body_of "payload"),
     [FetchCalled "http://a.test/x.bin";
      Log (DebugAttempting (Some "http://a.test/x.bin") 1);
      Request (Some "http://a.test/x.bin") (build_headers rnd_counter 0 false);
      Reply (Responded (mkResponse 200 "OK" None (inr (body_of "payload"))));
      Log (InfoFetched (Some "http://a.test/x.bin"))],
     mkState 1 1).
Proof. reflexivity. Qed.

(** Invalid YAML raises a subclass of [YAMLError]: [load_config] logs
    it and goes on. *)
Example example_invalid_yaml_is_caught :
  load_config SampleFS (fun _ _ => Some (OtherException "ParserError"))
    fs_open "kalpak.yaml"
  = (None, [Log (ErrorConfig "kalpak.yaml")]).
Proof. reflexivity. Qed.

Lemma download_writes_each_collected_url_once_witness :
  write_attempts
    (download_events net_echo rnd_counter sample_urlparse sample_join
       sample_basename SampleFS sample_exists sample_makedirs sample_write
       ["http://a.test/x.bin"; "http://a.test/y.bin"; "http://a.test/x.bin"]
       "out" 3 2 false fs_open (mkState 0 0))
  = [("out/x.bin", body_of "http://a.test/x.bin");
     ("out/y.bin", body_of "http://a.test/y.bin")].
Proof.
  rewrite (proj1 (download_writes_each_collected_url_once net_echo rnd_counter
                    sample_urlparse sample_join sample_basename SampleFS
                    sample_exists sample_makedirs sample_write
                    ["http://a.test/x.bin"; "http://a.test/y.bin";
                     "http://a.test/x.bin"]
                    "out" 3 2 false fs_open (mkState 0 0) fs_open eq_refl)).
  reflexivity.
Defined.
